(** * UserInfoProvider: profile store, avatar decoding and health-triggered sync

    A shallow embedding of
    [text2sql-frontend/src/components/Providers/UserInfoProvider.tsx].

    - JavaScript strings are [string]s, byte values and char codes are [Z].
    - An [async] function is a [Task]: a state transformer over the [World]
      (React state cell, snackbar queue, object-URL registry) that ends in a
      [Completion], either a normal value or a thrown error.
    - The variables a render closes over ([userInfo]) are arguments of the
      functions of that render; the live React state is a field of the
      [World].  The two are kept apart on purpose. *)

From Stdlib Require Import ZArith Ascii String List Lia.
From Stdlib Require Strings.Byte.
From stdpp Require Import base option list strings pretty gmap.

Local Open Scope string_scope.
Local Open Scope Z_scope.

(** ** JavaScript values *)

(** The body of an HTTP error response, [error.response.data]: a value
    whose [detail] property can be read, [None] when the property is
    missing.  [None] as a body (see [AxiosResponse]) stands for [null] and
    [undefined], on which a property read throws. *)
Record ErrorBody := { detail : option string }.

Record AxiosResponse := {
  status : Z;
  data : option ErrorBody
}.

(** What a rejected promise carries.  [isAxiosError] tells the first
    constructor from the others. *)
Inductive JsError :=
| AxiosError (response : option AxiosResponse)
| TypeError (message : string)
| Error (message : string).

Definition isAxiosError (error : JsError) : bool :=
  match error with
  | AxiosError _ => true
  | _ => false
  end.

Inductive Completion (A : Type) :=
| Normal (value : A)
| Throw (error : JsError).
Arguments Normal {A} value.
Arguments Throw {A} error.

(** ** Base64 reader behind [Buffer.from(text, "base64")]

    [Buffer] is imported from the [buffer] package, which is not part of
    this repository.  Its base64 reader is lenient: it cleans the text
    ([base64clean]) and decodes groups of four characters through a reverse
    table ([toByteArray]).  A character outside Latin-1 is outside the
    alphabet and is dropped like any other such character, so 8-bit
    characters suffice for the text. *)

Module Base64.

Definition charCode (c : ascii) : Z := Z.of_N (N_of_ascii c).

(** [String.fromCharCode] on a byte value. *)
Definition fromCharCode (n : Z) : ascii := ascii_of_N (Z.to_N (n mod 256)).

Definition code : list ascii :=
  list_ascii_of_string
    "ABCDEFGHIJKLMNOPQRSTUVWXYZabcdefghijklmnopqrstuvwxyz0123456789+/".

Definition lookup (i : Z) : ascii := nth (Z.to_nat i) code "A"%char.

Fixpoint indexOf (c : ascii) (l : list ascii) (i : Z) : option Z :=
  match l with
  | [] => None
  | x :: rest => if Ascii.eqb x c then Some i else indexOf c rest (i + 1)
  end.

(** The reverse table: every character of [code] maps to its index, and the
    URL-safe [-] and [_] map to 62 and 63.  Any other index reads
    [undefined]. *)
Definition revLookup (c : ascii) : option Z :=
  if Ascii.eqb c "-" then Some 62
  else if Ascii.eqb c "_" then Some 63
  else indexOf c code 0.

(** An [undefined] operand of a bit operation counts as 0. *)
Definition toInt32 (v : option Z) : Z := default 0 v.

Definition revLookupAt (c : ascii) : Z := toInt32 (revLookup c).

(** The characters kept by [/[^+/0-9A-Za-z-_]/g]. *)
Definition validChar (c : ascii) : bool :=
  let n := charCode c in
  (n =? 43) || (n =? 47) || ((48 <=? n) && (n <=? 57))
  || ((65 <=? n) && (n <=? 90)) || ((97 <=? n) && (n <=? 122))
  || (n =? 45) || (n =? 95).

(** White space removed by [trim], as far as it fits in one byte. *)
Definition whiteSpace (c : ascii) : bool :=
  let n := charCode c in
  ((9 <=? n) && (n <=? 13)) || (n =? 32) || (n =? 160).

Fixpoint dropWhile {A} (p : A -> bool) (l : list A) : list A :=
  match l with
  | [] => []
  | x :: rest => if p x then dropWhile p rest else l
  end.

Fixpoint takeWhile {A} (p : A -> bool) (l : list A) : list A :=
  match l with
  | [] => []
  | x :: rest => if p x then x :: takeWhile p rest else []
  end.

Definition trim (str : list ascii) : list ascii :=
  List.rev (dropWhile whiteSpace (List.rev (dropWhile whiteSpace str))).

Definition isPad (c : ascii) : bool := Ascii.eqb c "=".

Definition notPad (c : ascii) : bool := negb (isPad c).

(** [base64clean]: keep what precedes the first [=], trim, strip the
    characters outside the alphabet, give up on fewer than two characters,
    and pad with [=] to a multiple of four. *)
Definition base64clean (str : list ascii) : list ascii :=
  let str := takeWhile notPad str in
  let str := List.filter validChar (trim str) in
  if (length str <? 2)%nat then []
  else str ++ repeat "="%char ((4 - length str mod 4) mod 4)%nat.

(** The groups of [toByteArray].  A full group of four characters gives
    three bytes; the last group gives one byte when two characters precede
    the placeholders and two bytes when three do.  All intermediate values
    stay below [2^24], inside the range of the 32-bit operators. *)
Fixpoint decodeGroups (valid : list ascii) : list Z :=
  match valid with
  | c0 :: c1 :: c2 :: c3 :: rest =>
      let tmp :=
        Z.lor (Z.lor (Z.lor (Z.shiftl (revLookupAt c0) 18) (Z.shiftl (revLookupAt c1) 12))
                 (Z.shiftl (revLookupAt c2) 6)) (revLookupAt c3) in
      Z.land (Z.shiftr tmp 16) 255 :: Z.land (Z.shiftr tmp 8) 255
        :: Z.land tmp 255 :: decodeGroups rest
  | [c0; c1; c2] =>
      let tmp :=
        Z.lor (Z.lor (Z.shiftl (revLookupAt c0) 10) (Z.shiftl (revLookupAt c1) 4))
          (Z.shiftr (revLookupAt c2) 2) in
      [Z.land (Z.shiftr tmp 8) 255; Z.land tmp 255]
  | [c0; c1] =>
      let tmp := Z.lor (Z.shiftl (revLookupAt c0) 2) (Z.shiftr (revLookupAt c1) 4) in
      [Z.land tmp 255]
  | _ => []
  end.

(** [toByteArray]: refuses a length that is not a multiple of four, then
    reads the characters before the first placeholder. *)
Definition toByteArray (b64 : list ascii) : Completion (list Z) :=
  if (0 <? length b64 mod 4)%nat
  then Throw (Error "Invalid string. Length must be a multiple of 4")
  else Normal (decodeGroups (takeWhile notPad b64)).

Definition base64ToBytes (str : string) : Completion (list Z) :=
  toByteArray (base64clean (list_ascii_of_string str)).

(** Reference encoder of RFC 4648, with padding: what a valid payload for
    a byte sequence is. *)
Fixpoint encodeBytes (bytes : list Z) : list ascii :=
  match bytes with
  | b0 :: b1 :: b2 :: rest =>
      lookup (Z.shiftr b0 2)
        :: lookup (Z.lor (Z.shiftl (Z.land b0 3) 4) (Z.shiftr b1 4))
        :: lookup (Z.lor (Z.shiftl (Z.land b1 15) 2) (Z.shiftr b2 6))
        :: lookup (Z.land b2 63) :: encodeBytes rest
  | [b0; b1] =>
      [lookup (Z.shiftr b0 2);
       lookup (Z.lor (Z.shiftl (Z.land b0 3) 4) (Z.shiftr b1 4));
       lookup (Z.shiftl (Z.land b1 15) 2); "="%char]
  | [b0] =>
      [lookup (Z.shiftr b0 2); lookup (Z.shiftl (Z.land b0 3) 4);
       "="%char; "="%char]
  | [] => []
  end.

(** The characters of a payload before its padding. *)
Definition sextetChars (bytes : list Z) : list ascii :=
  takeWhile notPad (encodeBytes bytes).

Definition byteValue (b : Byte.byte) : Z := Z.of_N (Byte.to_N b).

Definition encode (payload : list Byte.byte) : string :=
  string_of_list_ascii (encodeBytes (map byteValue payload)).

End Base64.

(** ** The profile value, the React state cell and the world around it *)

Record UserInfo := {
  name : option string;
  openaiApiKey : option string;
  avatarUrl : option string
}.

(** [React.SetStateAction<UserInfo>]: a value, or a function of the
    previous state. *)
Inductive SetStateAction :=
| Value (next : UserInfo)
| Updater (update : UserInfo -> UserInfo).

Definition reduce (action : SetStateAction) (previous : UserInfo) : UserInfo :=
  match action with
  | Value next => next
  | Updater update => update previous
  end.

Record Snackbar := {
  variant : string;
  message : option string
}.

(** [state] is the value React holds for the [useState] cell, [snackbars]
    the notifications enqueued so far, [objectURLs] the blobs registered
    with [URL.createObjectURL], by URL. *)
Record World := {
  state : UserInfo;
  snackbars : list Snackbar;
  objectURLs : gmap string (list Z)
}.

Definition Task (A : Type) : Type := World -> Completion A * World.

#[global] Instance Task_ret : MRet Task := fun A a w => (Normal a, w).

#[global] Instance Task_bind : MBind Task := fun A B f m w =>
  match m w with
  | (Normal a, w') => f a w'
  | (Throw e, w') => (Throw e, w')
  end.

Definition throw {A} (error : JsError) : Task A := fun w => (Throw error, w).

Definition settle {A} (c : Completion A) : Task A := fun w => (c, w).

(** [try { body } catch (error) { handler }] *)
Definition tryCatch {A} (body : Task A) (handler : JsError -> Task A) : Task A :=
  fun w =>
    match body w with
    | (Normal a, w') => (Normal a, w')
    | (Throw error, w') => handler error w'
    end.

Definition setUserInfo (action : SetStateAction) : Task unit := fun w =>
  (Normal tt,
   {| state := reduce action (state w);
      snackbars := snackbars w;
      objectURLs := objectURLs w |}).

Definition enqueueSnackbar (options : Snackbar) : Task unit := fun w =>
  (Normal tt,
   {| state := state w;
      snackbars := snackbars w ++ [options];
      objectURLs := objectURLs w |}).

(** [URL.createObjectURL(blob)]: a URL not handed out before, under which
    the bytes of the blob can be read back. *)
Definition createObjectURL (blob : list Z) : Task string := fun w =>
  let url := "blob:" +:+ pretty (size (objectURLs w)) in
  (Normal url,
   {| state := state w;
      snackbars := snackbars w;
      objectURLs := <[url := blob]> (objectURLs w) |}).

(** ** The request client

    [api] is imported from a module outside this file.  A call is described
    by how the promise settles and by the state updates that other tasks
    (consumers of the context, another sync) make while it is pending. *)

Module Api.

Record UserInfoResult := {
  name : option string;
  openai_api_key : option string
}.

Record AvatarResult := { blob : string }.

Record Request (A : Type) := {
  interleaved : list SetStateAction;
  settled : Completion A
}.
Arguments interleaved {A} _.
Arguments settled {A} _.

End Api.

Fixpoint interfere (actions : list SetStateAction) (current : UserInfo) : UserInfo :=
  match actions with
  | [] => current
  | action :: rest => interfere rest (reduce action current)
  end.

(** [await request]: the task is suspended, the interleaved updates reach
    the state cell, then the task resumes with the settled result. *)
Definition await {A} (request : Api.Request A) : Task A := fun w =>
  (Api.settled request,
   {| state := interfere (Api.interleaved request) (state w);
      snackbars := snackbars w;
      objectURLs := objectURLs w |}).

(** ** [decodeBase64Data] *)

(** [Buffer.from(base64Data, "base64")]; the bytes are those of the
    reader of [Base64]. *)
Definition Buffer_from_base64 (text : string) : Task (list Z) :=
  settle (Base64.base64ToBytes text).

(** [buffer.toString("binary")]: one character per byte. *)
Definition toString_binary (buffer : list Z) : string :=
  string_of_list_ascii (map Base64.fromCharCode buffer).

(** [s.charCodeAt(i)]; [None] is [NaN], for an index past the end. *)
Definition charCodeAt (s : string) (i : nat) : option Z :=
  Base64.charCode <$> String.get i s.

(** The [for] loop: [count] iterations left, the next one at index [i]. *)
Fixpoint fillByteNumbers (byteCharacters : string) (count i : nat)
    (byteNumbers : list (option Z)) : list (option Z) :=
  match count with
  | O => byteNumbers
  | S count' =>
      fillByteNumbers byteCharacters count' (S i)
        (<[i := charCodeAt byteCharacters i]> byteNumbers)
  end.

(** [Uint8Array.from]: a hole or [NaN] becomes 0, a number wraps to 8 bits. *)
Definition Uint8Array_from (numbers : list (option Z)) : list Z :=
  map (fun n => default 0 n mod 256) numbers.

Definition decodeBase64Data (base64Data : string) : Task string :=
  buffer ← Buffer_from_base64 base64Data;
  let byteCharacters := toString_binary buffer in
  let byteNumbers :=
    fillByteNumbers byteCharacters (String.length byteCharacters) 0
      (replicate (String.length byteCharacters) None) in
  let byteArray := Uint8Array_from byteNumbers in
  let blob := byteArray in
  url ← createObjectURL blob;
  mret url.

(** ** The context and [useUserInfo] *)

Definition UserInfoContextType : Type :=
  option UserInfo * (SetStateAction -> Task unit) * (string -> Task unit).

(** A context holds its default value, which JavaScript allows to be
    [undefined] ([None]). *)
Record Context (T : Type) := { defaultValue : option T }.
Arguments defaultValue {T} _.

Definition createContext {T} (value : option T) : Context T :=
  {| defaultValue := value |}.

(** [useContext]: the value of the nearest enclosing provider (head of
    [enclosing]), or the default value without one. *)
Definition useContext {T} (context : Context T) (enclosing : list T) : option T :=
  match enclosing with
  | value :: _ => Some value
  | [] => defaultValue context
  end.

Definition UserInfoContext : Context UserInfoContextType :=
  createContext (Some (None, (fun _ => mret tt), (fun _ => mret tt))).

Definition useUserInfo (enclosing : list UserInfoContextType)
    : Completion UserInfoContextType :=
  match useContext UserInfoContext enclosing with
  | None => Throw (Error "useUserInfo must be used within a UserInfoProvider")
  | Some context => Normal context
  end.

(** ** [UserInfoProvider]: what one render defines *)

Definition response (error : JsError) : option AxiosResponse :=
  match error with
  | AxiosError r => r
  | _ => None
  end.

(** [error.response?.status !== 404] *)
Definition statusIsNot404 (error : JsError) : bool :=
  match response error with
  | None => true
  | Some r => negb (status r =? 404)
  end.

(** [error.response?.data.detail]: the chain stops at a missing response;
    a [null] or [undefined] body makes the read of [detail] throw. *)
Definition responseDataDetail (error : JsError) : Task (option string) :=
  match response error with
  | None => mret None
  | Some r =>
      match data r with
      | None => throw (TypeError "Cannot read properties of null (reading 'detail')")
      | Some body => mret (detail body)
      end
  end.

Section Render.

(** The state value this render read from [useState]; every function
    below closes over it. *)
Variable userInfo : UserInfo.

Definition setAvatarBlob (blob : string) : Task unit :=
  url ← decodeBase64Data blob;
  setUserInfo
    (Value {| name := name userInfo;
              openaiApiKey := openaiApiKey userInfo;
              avatarUrl := Some url |}).

Definition getAvatarUrl (avatar : Api.Request Api.AvatarResult)
    : Task (option string) :=
  tryCatch
    (response ← await avatar;
     url ← decodeBase64Data (Api.blob response);
     mret (Some url))
    (fun error =>
       if isAxiosError error then
         (if statusIsNot404 error then
            detail ← responseDataDetail error;
            enqueueSnackbar {| variant := "error"; message := detail |}
          else mret tt);;
         mret None
       else mret None).

Definition getUserInfo (profile : Api.Request Api.UserInfoResult)
    (avatar : Api.Request Api.AvatarResult) : Task unit :=
  tryCatch
    (response ← await profile;
     avatarUrl_ ← getAvatarUrl avatar;
     let name_ := Api.name response in
     let openaiApiKey_ := Api.openai_api_key response in
     setUserInfo
       (Value {| name := name_;
                 openaiApiKey := openaiApiKey_;
                 avatarUrl :=
                   match avatarUrl_ with
                   | Some url => Some url
                   | None => avatarUrl userInfo
                   end |}))
    (fun _ =>
       enqueueSnackbar
         {| variant := "error"; message := Some "Error getting user info" |}).

(** The body of the effect. *)
Definition effect (isHealthy : bool) (profile : Api.Request Api.UserInfoResult)
    (avatar : Api.Request Api.AvatarResult) : Task unit :=
  if isHealthy then getUserInfo profile avatar else mret tt.

(** The value handed to [UserInfoContext.Provider]. *)
Definition providerValue : UserInfoContextType :=
  (Some userInfo, setUserInfo, setAvatarBlob).

End Render.

(** The two requests of [getUserInfo], up to the point where the merged
    value is built: the world this task returns is the world at the moment
    of the merge. *)
Definition fetches (profile : Api.Request Api.UserInfoResult)
    (avatar : Api.Request Api.AvatarResult)
    : Task (Api.UserInfoResult * option string) :=
  response ← await profile;
  avatarUrl_ ← getAvatarUrl avatar;
  mret (response, avatarUrl_).

(** ** [useEffect(..., [isHealthy])] over the renders *)

(** The effect runs after the first render ([previous] is [None]) and
    after a render whose dependency differs from the previous render's. *)
Definition effectRuns (previous : option bool) (isHealthy : bool) : bool :=
  match previous with
  | None => true
  | Some before => negb (Bool.eqb before isHealthy)
  end.

Definition callsGetUserInfo (previous : option bool) (isHealthy : bool) : bool :=
  effectRuns previous isHealthy && isHealthy.

(** One render of [UserInfoProvider] and the effect after it: the render
    reads the state cell, and the effect body it defined runs when the
    dependency changed. *)
Definition renderThenEffect (previous : option bool) (isHealthy : bool)
    (profile : Api.Request Api.UserInfoResult)
    (avatar : Api.Request Api.AvatarResult) : Task unit := fun w =>
  let userInfo := state w in
  if effectRuns previous isHealthy
  then effect userInfo isHealthy profile avatar w
  else (Normal tt, w).

(** The sync as the health signal triggers it: a render that sees the
    signal true after a render that saw it false. *)
Definition healthSync (profile : Api.Request Api.UserInfoResult)
    (avatar : Api.Request Api.AvatarResult) : Task unit :=
  renderThenEffect (Some false) true profile avatar.

(** Per render of a sequence of observed signal values, whether
    [getUserInfo] is called. *)
Fixpoint syncCalls (previous : option bool) (signal : list bool) : list bool :=
  match signal with
  | [] => []
  | isHealthy :: rest =>
      callsGetUserInfo previous isHealthy :: syncCalls (Some isHealthy) rest
  end.

Definition countCalls (calls : list bool) : nat := length (List.filter id calls).

Definition syncCount (signal : list bool) : nat :=
  countCalls (syncCalls None signal).


(** The false-to-true transitions of a sequence whose previous value is
    [before]. *)
Fixpoint risingEdges (before : bool) (signal : list bool) : nat :=
  match signal with
  | [] => 0%nat
  | now :: rest =>
      ((if negb before && now then 1 else 0) + risingEdges now rest)%nat
  end.

Definition transitions (signal : list bool) : nat :=
  match signal with
  | [] => 0%nat
  | first :: rest => risingEdges first rest
  end.

(** The bytes behind the handle a decoding task returned. *)
Definition referencedBytes (result : Completion string * World) : option (list Z) :=
  match result with
  | (Normal url, w) => objectURLs w !! url
  | (Throw _, _) => None
  end.

(** The detail text of an error response, when there is one. *)
Definition serverDetail (error : JsError) : option string :=
  match response error with
  | Some r =>
      match data r with
      | Some body => detail body
      | None => None
      end
  | None => None
  end.

Definition merged (p : Api.UserInfoResult) (avatar : option string) : UserInfo :=
  {| name := Api.name p; openaiApiKey := Api.openai_api_key p; avatarUrl := avatar |}.

Definition withState (w : World) (s : UserInfo) : World :=
  {| state := s; snackbars := snackbars w; objectURLs := objectURLs w |}.

Definition withSnackbar (w : World) (s : Snackbar) : World :=
  {| state := state w; snackbars := snackbars w ++ [s]; objectURLs := objectURLs w |}.

Definition errorSnackbar (text : option string) : Snackbar :=
  {| variant := "error"; message := text |}.

(** The bytes the lenient reader finds in a text: those of the alphabet
    characters that precede the first [=]. *)
Definition decodedBytes (text : string) : list Z :=
  Base64.decodeGroups
    (List.filter Base64.validChar
       (Base64.takeWhile Base64.notPad (list_ascii_of_string text))).

Definition nextObjectURL (w : World) : string :=
  "blob:" +:+ pretty (size (objectURLs w)).

Definition withBlob (w : World) (blob : list Z) : World :=
  {| state := state w;
     snackbars := snackbars w;
     objectURLs := <[nextObjectURL w := blob]> (objectURLs w) |}.

Definition isByte (z : Z) : Prop := 0 <= z < 256.

(** The world in which a task resumes after a request. *)
Definition resumed {A} (w : World) (request : Api.Request A) : World :=
  withState w (interfere (Api.interleaved request) (state w)).

(** The dependency value the latest render of a sequence saw. *)
Fixpoint lastSeen (previous : option bool) (signal : list bool) : option bool :=
  match signal with
  | [] => previous
  | isHealthy :: rest => lastSeen (Some isHealthy) rest
  end.

(** ** Sample runs *)

(** The initial value given to [useState]. *)
Definition initialUserInfo : UserInfo :=
  {| name := None; openaiApiKey := None; avatarUrl := None |}.

Definition initialWorld : World :=
  {| state := initialUserInfo; snackbars := []; objectURLs := ∅ |}.

Definition annResult : Api.UserInfoResult :=
  {| Api.name := Some "Ann"; Api.openai_api_key := Some "sk-123" |}.

Definition annProfile : Api.Request Api.UserInfoResult :=
  {| Api.interleaved := []; Api.settled := Normal annResult |}.

Definition failedProfile : Api.Request Api.UserInfoResult :=
  {| Api.interleaved := [];
     Api.settled := Throw (AxiosError (Some {| status := 503; data := None |})) |}.

Definition notFound : JsError :=
  AxiosError (Some {| status := 404;
                      data := Some {| detail := Some "Avatar not found" |} |}).

Definition serverError : JsError :=
  AxiosError (Some {| status := 500;
                      data := Some {| detail := Some "server error" |} |}).

Definition avatarNotFound : Api.Request Api.AvatarResult :=
  {| Api.interleaved := []; Api.settled := Throw notFound |}.

Definition avatarServerError : Api.Request Api.AvatarResult :=
  {| Api.interleaved := []; Api.settled := Throw serverError |}.

(** The avatar request is rejected with an error that is not an Axios
    error, here one thrown by a response interceptor. *)
Definition avatarOtherError : Api.Request Api.AvatarResult :=
  {| Api.interleaved := [];
     Api.settled := Throw (Error "response interceptor failed") |}.

(** While the avatar request is pending, a consumer stores an avatar. *)
Definition avatarNotFoundAfterUpload : Api.Request Api.AvatarResult :=
  {| Api.interleaved :=
       [Updater (fun previous =>
          {| name := name previous;
             openaiApiKey := openaiApiKey previous;
             avatarUrl := Some "blob:uploaded" |})];
     Api.settled := Throw notFound |}.

(** The state after a sync stored Ann's profile. *)
Definition annWorld : World :=
  {| state := {| name := Some "Ann"; openaiApiKey := Some "sk-123";
                 avatarUrl := None |};
     snackbars := [];
     objectURLs := ∅ |}.

(** ** Further notions for the properties of the decoder and of the renders *)

(** The characters the reader looks at: those of the alphabet, and [=]. *)
Definition keptChar (c : ascii) : bool := Base64.validChar c || Base64.isPad c.

Definition keptChars (text : string) : list ascii :=
  List.filter keptChar (list_ascii_of_string text).

(** The number of alphabet characters before the first [=]. *)
Definition validCount (text : string) : nat :=
  length (List.filter Base64.validChar
            (Base64.takeWhile Base64.notPad (list_ascii_of_string text))).

(** A payload without its padding. *)
Definition encodeUnpadded (payload : list Byte.byte) : string :=
  string_of_list_ascii (Base64.sextetChars (map Base64.byteValue payload)).

(** The URL-safe characters [-] and [_] written as [+] and [/]. *)
Definition standardChar (c : ascii) : ascii :=
  if Ascii.eqb c "-" then "+"%char
  else if Ascii.eqb c "_" then "/"%char
  else c.

Definition toStandard (text : string) : string :=
  string_of_list_ascii (map standardChar (list_ascii_of_string text)).

(** Every registered URL is one that [createObjectURL] handed out: the
    [k]-th URL for some [k] below the number of registered blobs. *)
Definition registryOk (registry : gmap string (list Z)) : Prop :=
  forall url : string,
    is_Some (registry !! url) ->
    exists k : nat, (k < size registry)%nat /\ url = "blob:" +:+ pretty k.

(** A run of renders, each with the signal value it sees and the requests
    its sync would make; the sync of a render is over before the next
    render. *)
Fixpoint runRenders (previous : option bool)
    (renders : list (bool * Api.Request Api.UserInfoResult
                     * Api.Request Api.AvatarResult)) : Task unit :=
  match renders with
  | [] => mret tt
  | (isHealthy, profile, avatar) :: rest =>
      renderThenEffect previous isHealthy profile avatar;;
      runRenders (Some isHealthy) rest
  end.

Definition signalOf
    (renders : list (bool * Api.Request Api.UserInfoResult
                     * Api.Request Api.AvatarResult)) : list bool :=
  map (fun render => fst (fst render)) renders.

(** Sample data for the further properties. *)

Definition abcdAvatar : Api.Request Api.AvatarResult :=
  {| Api.interleaved := [];
     Api.settled := Normal {| Api.blob := "QUJDRA==" |} |}.

Definition nullBodyError : AxiosResponse := {| status := 500; data := None |}.

Definition avatarNullBody : Api.Request Api.AvatarResult :=
  {| Api.interleaved := [];
     Api.settled := Throw (AxiosError (Some nullBodyError)) |}.

(** The same profile request, with a consumer renaming the user while it
    is pending. *)
Definition annProfileRenamed : Api.Request Api.UserInfoResult :=
  {| Api.interleaved :=
       [Updater (fun previous =>
          {| name := Some "Bob";
             openaiApiKey := openaiApiKey previous;
             avatarUrl := avatarUrl previous |})];
     Api.settled := Normal annResult |}.

(** A payload broken over two lines. *)
Definition wrappedText : string :=
  String.append "QUJD" (String "010"%char "RA==").

(** * Properties *)

(** Division and remainder by constants, then linear arithmetic. *)
Ltac arith := Z.div_mod_to_equations; lia.

Ltac bits_to_arith :=
  repeat first
    [ rewrite Z.shiftl_mul_pow2 by lia
    | rewrite Z.shiftr_div_pow2 by lia
    | rewrite (Z.land_ones _ 8) by lia
    | rewrite (Z.land_ones _ 6) by lia
    | rewrite (Z.land_ones _ 4) by lia
    | rewrite (Z.land_ones _ 2) by lia ];
  change (2 ^ 2) with 4; change (2 ^ 4) with 16; change (2 ^ 6) with 64;
  change (2 ^ 8) with 256; change (2 ^ 10) with 1024;
  change (2 ^ 12) with 4096; change (2 ^ 16) with 65536;
  change (2 ^ 18) with 262144.

(** Unfolds the operations of [Task]. *)
Ltac run_task :=
  unfold mbind, Task_bind, mret, Task_ret, settle, throw, tryCatch, await,
    setUserInfo, enqueueSnackbar, createObjectURL.


(** ** The base64 tables *)

Section Base64Facts.

Import Base64.

Lemma lookup_table (i : Z) :
  0 <= i < 64 ->
  revLookupAt (lookup i) = i /\ validChar (lookup i) = true
  /\ isPad (lookup i) = false.
Proof.
  intros Hi.
  assert (Hn : exists n, (n < 64)%nat /\ i = Z.of_nat n).
  { exists (Z.to_nat i). lia. }
  destruct Hn as (n & Hn & ->).
  do 64 (destruct n as [|n]; [vm_compute; auto|]).
  lia.
Qed.

Lemma valid_not_pad (c : ascii) : validChar c = true -> isPad c = false.
Proof.
  destruct c as [[] [] [] [] [] [] [] []]; vm_compute; congruence.
Qed.

Lemma whiteSpace_invalid (c : ascii) : whiteSpace c = true -> validChar c = false.
Proof.
  destruct c as [[] [] [] [] [] [] [] []]; vm_compute; congruence.
Qed.

(** ** Bit operations as arithmetic *)

Lemma lor_add (a b n : Z) :
  0 <= n -> a mod 2 ^ n = 0 -> 0 <= b < 2 ^ n -> Z.lor a b = a + b.
Proof.
  intros Hn Ha Hb.
  rewrite <- (Z.add_lor_land a b).
  assert (Hland : Z.land a b = 0).
  { apply Z.bits_inj'. intros k Hk.
    rewrite Z.land_spec, Z.bits_0.
    destruct (Z.lt_ge_cases k n) as [Hlt|Hge].
    - rewrite (Z.div_mod a (2 ^ n)) by lia.
      rewrite Ha, Z.add_0_r, Z.mul_comm, Z.mul_pow2_bits_low by lia.
      reflexivity.
    - destruct (Z.eq_dec b 0) as [->|Hb0].
      + rewrite Z.bits_0. apply andb_false_r.
      + rewrite (Z.bits_above_log2 b k); [apply andb_false_r|lia|].
        apply Z.log2_lt_pow2; [lia|].
        pose proof (Z.pow_le_mono_r 2 n k). lia. }
  lia.
Qed.

Lemma sextets_of_bytes (b0 b1 b2 : Z) :
  isByte b0 -> isByte b1 -> isByte b2 ->
  Z.shiftr b0 2 = b0 / 4
  /\ Z.lor (Z.shiftl (Z.land b0 3) 4) (Z.shiftr b1 4) = b0 mod 4 * 16 + b1 / 16
  /\ Z.lor (Z.shiftl (Z.land b1 15) 2) (Z.shiftr b2 6) = b1 mod 16 * 4 + b2 / 64
  /\ Z.land b2 63 = b2 mod 64
  /\ Z.shiftl (Z.land b0 3) 4 = b0 mod 4 * 16
  /\ Z.shiftl (Z.land b1 15) 2 = b1 mod 16 * 4.
Proof.
  unfold isByte. intros H0 H1 H2.
  change 3 with (Z.ones 2). change 15 with (Z.ones 4). change 63 with (Z.ones 6).
  bits_to_arith.
  rewrite (lor_add (b0 mod 4 * 16) (b1 / 16) 4) by (try arith).
  rewrite (lor_add (b1 mod 16 * 4) (b2 / 64) 2) by (try arith).
  repeat split; reflexivity.
Qed.

Lemma bytes_of_sextets (s0 s1 s2 s3 : Z) :
  0 <= s0 < 64 -> 0 <= s1 < 64 -> 0 <= s2 < 64 -> 0 <= s3 < 64 ->
  Z.lor (Z.lor (Z.lor (Z.shiftl s0 18) (Z.shiftl s1 12)) (Z.shiftl s2 6)) s3
  = s0 * 262144 + s1 * 4096 + s2 * 64 + s3
  /\ Z.lor (Z.lor (Z.shiftl s0 10) (Z.shiftl s1 4)) (Z.shiftr s2 2)
    = s0 * 1024 + s1 * 16 + s2 / 4
  /\ Z.lor (Z.shiftl s0 2) (Z.shiftr s1 4) = s0 * 4 + s1 / 16.
Proof.
  intros H0 H1 H2 H3. bits_to_arith.
  rewrite (lor_add (s0 * 262144) (s1 * 4096) 18) by (try arith).
  rewrite (lor_add (s0 * 262144 + s1 * 4096) (s2 * 64) 12) by (try arith).
  rewrite (lor_add (s0 * 262144 + s1 * 4096 + s2 * 64) s3 6) by (try arith).
  rewrite (lor_add (s0 * 1024) (s1 * 16) 10) by (try arith).
  rewrite (lor_add (s0 * 1024 + s1 * 16) (s2 / 4) 4) by (try arith).
  rewrite (lor_add (s0 * 4) (s1 / 16) 2) by (try arith).
  repeat split; reflexivity.
Qed.

Lemma list_ind3 {A} (P : list A -> Prop) :
  P [] -> (forall a, P [a]) -> (forall a b, P [a; b]) ->
  (forall a b c l, P l -> P (a :: b :: c :: l)) ->
  forall l, P l.
Proof.
  intros H0 H1 H2 H3. fix IH 1.
  intros [|a [|b [|c l]]];
    [apply H0 | apply H1 | apply H2 | apply H3, IH].
Qed.

Lemma sextet_ranges (b0 b1 b2 : Z) :
  isByte b0 -> isByte b1 -> isByte b2 ->
  0 <= b0 / 4 < 64 /\ 0 <= b0 mod 4 * 16 + b1 / 16 < 64
  /\ 0 <= b1 mod 16 * 4 + b2 / 64 < 64 /\ 0 <= b2 mod 64 < 64
  /\ 0 <= b0 mod 4 * 16 < 64 /\ 0 <= b1 mod 16 * 4 < 64.
Proof. unfold isByte. intros. repeat split; arith. Qed.

Lemma decodeGroups_encodeBytes (bytes : list Z) :
  Forall isByte bytes -> decodeGroups (sextetChars bytes) = bytes.
Proof.
  unfold sextetChars.
  induction bytes as [|b0|b0 b1|b0 b1 b2 rest IH] using list_ind3; intros Hb.
  - reflexivity.
  - inversion_clear Hb as [|? ? H0 _].
    destruct (sextets_of_bytes b0 0 0 H0) as (E0 & _ & _ & _ & E4 & _);
      [unfold isByte; lia..|].
    destruct (sextet_ranges b0 0 0 H0) as (R0 & _ & _ & _ & R4 & _);
      [unfold isByte; lia..|].
    cbn [encodeBytes]. rewrite E0, E4.
    destruct (lookup_table _ R0) as (L0 & _ & P0).
    destruct (lookup_table _ R4) as (L4 & _ & P4).
    cbn [takeWhile]. unfold notPad. rewrite P0, P4. cbn [negb isPad Ascii.eqb].
    cbn [decodeGroups]. rewrite L0, L4.
    destruct (bytes_of_sextets (b0 / 4) (b0 mod 4 * 16) 0 0) as (_ & _ & ->);
      [lia..|].
    change 255 with (Z.ones 8). bits_to_arith.
    f_equal. unfold isByte in H0. arith.
  - inversion_clear Hb as [|? ? H0 Hb']. inversion_clear Hb' as [|? ? H1 _].
    destruct (sextets_of_bytes b0 b1 0 H0 H1) as (E0 & E1 & _ & _ & _ & E5);
      [unfold isByte; lia|].
    destruct (sextet_ranges b0 b1 0 H0 H1) as (R0 & R1 & _ & _ & _ & R5);
      [unfold isByte; lia|].
    cbn [encodeBytes]. rewrite E0, E1, E5.
    destruct (lookup_table _ R0) as (L0 & _ & P0).
    destruct (lookup_table _ R1) as (L1 & _ & P1).
    destruct (lookup_table _ R5) as (L5 & _ & P5).
    cbn [takeWhile]. unfold notPad. rewrite P0, P1, P5. cbn [negb isPad Ascii.eqb].
    cbn [decodeGroups]. rewrite L0, L1, L5.
    destruct (bytes_of_sextets (b0 / 4) (b0 mod 4 * 16 + b1 / 16)
                (b1 mod 16 * 4) 0) as (_ & -> & _); [lia..|].
    change 255 with (Z.ones 8). bits_to_arith.
    unfold isByte in H0, H1. f_equal; [arith|f_equal; arith].
  - inversion_clear Hb as [|? ? H0 Hb']. inversion_clear Hb' as [|? ? H1 Hb].
    inversion_clear Hb as [|? ? H2 Hrest].
    destruct (sextets_of_bytes b0 b1 b2 H0 H1 H2) as (E0 & E1 & E2 & E3 & _).
    destruct (sextet_ranges b0 b1 b2 H0 H1 H2) as (R0 & R1 & R2 & R3 & _).
    cbn [encodeBytes]. rewrite E0, E1, E2, E3.
    destruct (lookup_table _ R0) as (L0 & _ & P0).
    destruct (lookup_table _ R1) as (L1 & _ & P1).
    destruct (lookup_table _ R2) as (L2 & _ & P2).
    destruct (lookup_table _ R3) as (L3 & _ & P3).
    cbn [takeWhile]. unfold notPad at 1 2 3 4. rewrite P0, P1, P2, P3.
    cbn [negb]. cbn [decodeGroups]. rewrite L0, L1, L2, L3.
    destruct (bytes_of_sextets _ _ _ _ R0 R1 R2 R3) as (-> & _ & _).
    change 255 with (Z.ones 8). bits_to_arith.
    rewrite (IH Hrest).
    unfold isByte in H0, H1, H2. f_equal; [arith|f_equal; [arith|f_equal; arith]].
Qed.

Lemma sextetChars_valid (bytes : list Z) :
  Forall isByte bytes -> Forall (fun c => validChar c = true) (sextetChars bytes).
Proof.
  unfold sextetChars.
  induction bytes as [|b0|b0 b1|b0 b1 b2 rest IH] using list_ind3; intros Hb.
  - constructor.
  - inversion_clear Hb as [|? ? H0 _].
    destruct (sextets_of_bytes b0 0 0 H0) as (E0 & _ & _ & _ & E4 & _);
      [unfold isByte; lia..|].
    destruct (sextet_ranges b0 0 0 H0) as (R0 & _ & _ & _ & R4 & _);
      [unfold isByte; lia..|].
    cbn [encodeBytes]. rewrite E0, E4.
    destruct (lookup_table _ R0) as (_ & V0 & P0).
    destruct (lookup_table _ R4) as (_ & V4 & P4).
    cbn [takeWhile]. unfold notPad. rewrite P0, P4. cbn [negb isPad Ascii.eqb].
    repeat constructor; assumption.
  - inversion_clear Hb as [|? ? H0 Hb']. inversion_clear Hb' as [|? ? H1 _].
    destruct (sextets_of_bytes b0 b1 0 H0 H1) as (E0 & E1 & _ & _ & _ & E5);
      [unfold isByte; lia|].
    destruct (sextet_ranges b0 b1 0 H0 H1) as (R0 & R1 & _ & _ & _ & R5);
      [unfold isByte; lia|].
    cbn [encodeBytes]. rewrite E0, E1, E5.
    destruct (lookup_table _ R0) as (_ & V0 & P0).
    destruct (lookup_table _ R1) as (_ & V1 & P1).
    destruct (lookup_table _ R5) as (_ & V5 & P5).
    cbn [takeWhile]. unfold notPad. rewrite P0, P1, P5. cbn [negb isPad Ascii.eqb].
    repeat constructor; assumption.
  - inversion_clear Hb as [|? ? H0 Hb']. inversion_clear Hb' as [|? ? H1 Hb].
    inversion_clear Hb as [|? ? H2 Hrest].
    destruct (sextets_of_bytes b0 b1 b2 H0 H1 H2) as (E0 & E1 & E2 & E3 & _).
    destruct (sextet_ranges b0 b1 b2 H0 H1 H2) as (R0 & R1 & R2 & R3 & _).
    cbn [encodeBytes]. rewrite E0, E1, E2, E3.
    destruct (lookup_table _ R0) as (_ & V0 & P0).
    destruct (lookup_table _ R1) as (_ & V1 & P1).
    destruct (lookup_table _ R2) as (_ & V2 & P2).
    destruct (lookup_table _ R3) as (_ & V3 & P3).
    cbn [takeWhile]. unfold notPad at 1 2 3 4. rewrite P0, P1, P2, P3.
    cbn [negb]. repeat (constructor; [assumption|]). exact (IH Hrest).
Qed.

(** ** The lenient cleaning *)

Lemma filter_valid_dropWhile (str : list ascii) :
  List.filter validChar (dropWhile whiteSpace str) = List.filter validChar str.
Proof.
  induction str as [|c str IH]; [reflexivity|].
  cbn [dropWhile]. destruct (whiteSpace c) eqn:Hc; [|reflexivity].
  cbn [List.filter]. rewrite (whiteSpace_invalid c Hc). exact IH.
Qed.

Lemma filter_valid_trim (str : list ascii) :
  List.filter validChar (trim str) = List.filter validChar str.
Proof.
  unfold trim.
  rewrite List.filter_rev, filter_valid_dropWhile, List.filter_rev.
  rewrite List.rev_involutive. apply filter_valid_dropWhile.
Qed.

Lemma filter_valid_all (str : list ascii) :
  Forall (fun c => validChar c = true) str -> List.filter validChar str = str.
Proof.
  induction 1 as [|c str Hc _ IH]; [reflexivity|].
  cbn [List.filter]. rewrite Hc, IH. reflexivity.
Qed.

Lemma filter_valid_Forall (str : list ascii) :
  Forall (fun c => validChar c = true) (List.filter validChar str).
Proof.
  induction str as [|c str IH]; [constructor|].
  cbn [List.filter]. destruct (validChar c) eqn:Hc; [constructor|]; assumption.
Qed.

Lemma takeWhile_before_padding (valid : list ascii) (k : nat) :
  Forall (fun c => validChar c = true) valid ->
  takeWhile notPad (valid ++ repeat "="%char k) = valid.
Proof.
  induction 1 as [|c valid Hc _ IH].
  - destruct k; reflexivity.
  - cbn [app takeWhile]. unfold notPad at 1.
    rewrite (valid_not_pad c Hc). cbn [negb]. rewrite IH. reflexivity.
Qed.

(** Whatever the text, the reader succeeds, and its bytes are those of
    the alphabet characters that precede the first [=]. *)
Lemma base64ToBytes_lenient (text : string) :
  base64ToBytes text
  = Normal (decodeGroups
              (List.filter validChar (takeWhile notPad (list_ascii_of_string text)))).
Proof.
  unfold base64ToBytes, base64clean.
  rewrite filter_valid_trim.
  set (valid := List.filter validChar _).
  assert (Hvalid : Forall (fun c => validChar c = true) valid)
    by apply filter_valid_Forall.
  destruct (length valid <? 2)%nat eqn:Hlen.
  - apply Nat.ltb_lt in Hlen.
    destruct valid as [|c0 [|c1 valid]]; [reflexivity|reflexivity|].
    cbn [length] in Hlen. lia.
  - unfold toByteArray.
    rewrite takeWhile_before_padding by assumption.
    rewrite List.length_app, List.repeat_length.
    replace (0 <? _)%nat with false; [reflexivity|].
    symmetry. apply Nat.ltb_ge.
    generalize (length valid). intros n.
    pose proof (Nat.mod_upper_bound n 4).
    pose proof (Nat.div_mod_eq n 4).
    assert (Hk : ((4 - n mod 4) mod 4 = 0 /\ n mod 4 = 0
                 \/ (4 - n mod 4) mod 4 = 4 - n mod 4 /\ 0 < n mod 4)%nat).
    { destruct (n mod 4)%nat as [|[|[|[|]]]]; cbn; lia. }
    assert (Hz : ((n + (4 - n mod 4) mod 4) mod 4 = 0)%nat).
    { destruct Hk as [[-> ?]|[-> ?]].
      - rewrite Nat.add_0_r. assumption.
      - replace (n + (4 - n mod 4))%nat with ((1 + n / 4) * 4)%nat by lia.
        apply Nat.Div0.mod_mul. }
    lia.
Qed.

Lemma decodeGroups_bytes (valid : list ascii) : Forall isByte (decodeGroups valid).
Proof.
  assert (Hland : forall z, isByte (Z.land z 255)).
  { intros z. unfold isByte. change 255 with (Z.ones 8).
    rewrite Z.land_ones by lia. apply Z.mod_pos_bound. lia. }
  revert valid. fix IH 1.
  intros [|c0 [|c1 [|c2 [|c3 rest]]]]; cbn [decodeGroups];
    repeat (constructor; [apply Hland|]); try constructor.
  apply IH.
Qed.

Lemma byteValue_isByte (payload : list Byte.byte) :
  Forall isByte (map byteValue payload).
Proof.
  induction payload as [|b payload IH]; constructor; [|exact IH].
  unfold isByte, byteValue. pose proof (Byte.to_N_bounded b). lia.
Qed.

Lemma charCode_fromCharCode (z : Z) : charCode (fromCharCode z) = z mod 256.
Proof.
  unfold charCode, fromCharCode.
  pose proof (Z.mod_pos_bound z 256 ltac:(lia)).
  rewrite N_ascii_embedding by lia.
  apply Z2N.id. lia.
Qed.

End Base64Facts.

(** ** [decodeBase64Data] *)

Lemma get_list_ascii (s : string) (i : nat) :
  String.get i s = list_ascii_of_string s !! i.
Proof.
  revert i. induction s as [|c s IH]; intros [|i]; cbn; auto.
Qed.

Lemma length_list_ascii (s : string) :
  length (list_ascii_of_string s) = String.length s.
Proof. induction s as [|c s IH]; cbn; [reflexivity|f_equal; exact IH]. Qed.

(** Loop invariant: after [i] iterations the first [i] slots hold the char
    codes and the remaining [count] slots are still holes. *)
Lemma fillByteNumbers_invariant (byteCharacters : string) (count i : nat) :
  (i + count)%nat = String.length byteCharacters ->
  fillByteNumbers byteCharacters count i
    (((fun c => Some (Base64.charCode c))
        <$> take i (list_ascii_of_string byteCharacters)) ++ replicate count None)%list
  = (fun c => Some (Base64.charCode c)) <$> list_ascii_of_string byteCharacters.
Proof.
  revert i. induction count as [|count IH]; intros i Hlen.
  - cbn [fillByteNumbers replicate]. rewrite app_nil_r, take_ge; [reflexivity|].
    rewrite length_list_ascii. lia.
  - cbn [fillByteNumbers replicate].
    assert (Hi : (i < length (list_ascii_of_string byteCharacters))%nat)
      by (rewrite length_list_ascii; lia).
    destruct (lookup_lt_is_Some_2 _ _ Hi) as [c Hc].
    unfold charCodeAt. rewrite get_list_ascii, Hc. cbn [fmap option_fmap option_map].
    rewrite insert_app_r_alt by (rewrite length_fmap, length_take; lia).
    rewrite length_fmap, length_take, Nat.min_l, Nat.sub_diag by lia.
    cbn [insert list_insert].
    rewrite <- (IH (S i)) by lia.
    rewrite (take_S_r _ _ _ Hc), fmap_app, <- app_assoc. reflexivity.
Qed.

Lemma byteArray_of_buffer (buffer : list Z) :
  Forall isByte buffer ->
  let byteCharacters := toString_binary buffer in
  Uint8Array_from
    (fillByteNumbers byteCharacters (String.length byteCharacters) 0
       (replicate (String.length byteCharacters) None))
  = buffer.
Proof.
  intros Hbytes byteCharacters.
  pose proof (fillByteNumbers_invariant byteCharacters
                (String.length byteCharacters) 0 eq_refl) as Hfill.
  rewrite take_0 in Hfill. cbn [fmap list_fmap app] in Hfill. rewrite Hfill.
  unfold byteCharacters, toString_binary, Uint8Array_from.
  rewrite list_ascii_of_string_of_list_ascii.
  clear Hfill byteCharacters.
  induction Hbytes as [|z buffer Hz _ IH]; [reflexivity|].
  cbn [map fmap list_fmap]. rewrite charCode_fromCharCode.
  f_equal; [|exact IH].
  unfold isByte in Hz. unfold default, id. rewrite Z.mod_mod, Z.mod_small; lia.
Qed.

Lemma decodeBase64Data_run (base64Data : string) (w : World) :
  decodeBase64Data base64Data w
  = (Normal (nextObjectURL w), withBlob w (decodedBytes base64Data)).
Proof.
  unfold decodeBase64Data, Buffer_from_base64. run_task.
  rewrite base64ToBytes_lenient.
  rewrite byteArray_of_buffer by apply decodeGroups_bytes.
  reflexivity.
Qed.

Lemma decodedBytes_encode (payload : list Byte.byte) :
  decodedBytes (Base64.encode payload) = map Base64.byteValue payload.
Proof.
  unfold decodedBytes, Base64.encode.
  rewrite list_ascii_of_string_of_list_ascii.
  pose proof (byteValue_isByte payload) as Hbytes.
  fold (Base64.sextetChars (map Base64.byteValue payload)).
  rewrite filter_valid_all by (apply sextetChars_valid; exact Hbytes).
  apply decodeGroups_encodeBytes. exact Hbytes.
Qed.

(** C7: for every byte sequence, decoding its base64 payload yields a
    handle behind which exactly those bytes are registered, and the bytes
    behind the handle depend on the input text alone, not on the world in
    which the decoding runs. *)
Theorem decodeBase64Data_round_trip (payload : list Byte.byte) (w : World) :
  referencedBytes (decodeBase64Data (Base64.encode payload) w)
  = Some (map Base64.byteValue payload)
  /\ forall (text : string) (w1 w2 : World),
      referencedBytes (decodeBase64Data text w1)
      = referencedBytes (decodeBase64Data text w2).
Proof.
  assert (Hread : forall text w0,
             referencedBytes (decodeBase64Data text w0) = Some (decodedBytes text)).
  { intros text w0. rewrite decodeBase64Data_run.
    unfold referencedBytes, withBlob. cbn [objectURLs].
    apply lookup_insert_eq. }
  split.
  - rewrite Hread, decodedBytes_encode. reflexivity.
  - intros text w1 w2. rewrite !Hread. reflexivity.
Qed.

(** ** The tasks of one render *)

Lemma setAvatarBlob_run (userInfo : UserInfo) (blob : string) (w : World) :
  setAvatarBlob userInfo blob w
  = (Normal tt,
     withState (withBlob w (decodedBytes blob))
       {| name := name userInfo;
          openaiApiKey := openaiApiKey userInfo;
          avatarUrl := Some (nextObjectURL w) |}).
Proof.
  unfold setAvatarBlob. unfold mbind at 1. unfold Task_bind.
  rewrite decodeBase64Data_run. reflexivity.
Qed.

Lemma getAvatarUrl_success (avatar : Api.Request Api.AvatarResult)
    (r : Api.AvatarResult) (w : World) :
  Api.settled avatar = Normal r ->
  getAvatarUrl avatar w
  = (Normal (Some (nextObjectURL w)),
     withBlob (resumed w avatar) (decodedBytes (Api.blob r))).
Proof.
  intros Hr. unfold getAvatarUrl, tryCatch.
  unfold mbind at 1. unfold Task_bind at 1. unfold await. rewrite Hr.
  unfold mbind, Task_bind. rewrite decodeBase64Data_run. reflexivity.
Qed.

Lemma getAvatarUrl_failure (avatar : Api.Request Api.AvatarResult)
    (error : JsError) (w : World) :
  Api.settled avatar = Throw error ->
  getAvatarUrl avatar w
  = if isAxiosError error && statusIsNot404 error then
      match response error with
      | Some {| data := None |} =>
          (Throw (TypeError "Cannot read properties of null (reading 'detail')"),
           resumed w avatar)
      | _ =>
          (Normal None,
           withSnackbar (resumed w avatar) (errorSnackbar (serverDetail error)))
      end
    else (Normal None, resumed w avatar).
Proof.
  intros He. unfold getAvatarUrl, tryCatch.
  unfold mbind at 1. unfold Task_bind at 1. unfold await. rewrite He.
  destruct error as [[[code [body|]]|]|text|text]; cbn;
    try reflexivity; destruct (code =? 404); reflexivity.
Qed.

Lemma getUserInfo_profile_failure (userInfo : UserInfo)
    (profile : Api.Request Api.UserInfoResult)
    (avatar : Api.Request Api.AvatarResult) (error : JsError) (w : World) :
  Api.settled profile = Throw error ->
  getUserInfo userInfo profile avatar w
  = (Normal tt,
     withSnackbar (resumed w profile)
       (errorSnackbar (Some "Error getting user info"))).
Proof.
  intros He. unfold getUserInfo, tryCatch.
  unfold mbind at 1. unfold Task_bind at 1. unfold await. rewrite He.
  reflexivity.
Qed.

(** [getUserInfo] is its two requests followed by the merge, inside the
    [try]. *)
Lemma getUserInfo_fetches (userInfo : UserInfo)
    (profile : Api.Request Api.UserInfoResult)
    (avatar : Api.Request Api.AvatarResult) (w : World) :
  getUserInfo userInfo profile avatar w
  = match fetches profile avatar w with
    | (Normal (p, handle), w1) =>
        (Normal tt,
         withState w1
           (merged p (match handle with
                      | Some url => Some url
                      | None => avatarUrl userInfo
                      end)))
    | (Throw _, w1) =>
        (Normal tt,
         withSnackbar w1 (errorSnackbar (Some "Error getting user info")))
    end.
Proof.
  unfold getUserInfo, fetches, tryCatch, mbind, Task_bind.
  destruct (await profile w) as [[p|e] w0]; [|reflexivity].
  destruct (getAvatarUrl avatar w0) as [[handle|e] w1]; reflexivity.
Qed.

Lemma renderThenEffect_calls (previous : option bool) (isHealthy : bool)
    (profile : Api.Request Api.UserInfoResult)
    (avatar : Api.Request Api.AvatarResult) (w : World) :
  renderThenEffect previous isHealthy profile avatar w
  = if callsGetUserInfo previous isHealthy
    then getUserInfo (state w) profile avatar w
    else (Normal tt, w).
Proof.
  unfold renderThenEffect, callsGetUserInfo, effect.
  destruct (effectRuns previous isHealthy), isHealthy; reflexivity.
Qed.

Lemma healthSync_getUserInfo (profile : Api.Request Api.UserInfoResult)
    (avatar : Api.Request Api.AvatarResult) (w : World) :
  healthSync profile avatar w = getUserInfo (state w) profile avatar w.
Proof. unfold healthSync. rewrite renderThenEffect_calls. reflexivity. Qed.

(** ** The sync procedure *)

(** C1, as the code has it: when the avatar step yields no handle, the
    merged value takes the avatar of the state value captured by the render
    that defined [getUserInfo]; this is the avatar held at the moment of the
    merge whenever the updates interleaved with the requests left the avatar
    as captured. *)
Theorem merge_reuses_captured_avatar (userInfo : UserInfo)
    (profile : Api.Request Api.UserInfoResult)
    (avatar : Api.Request Api.AvatarResult)
    (w w1 : World) (p : Api.UserInfoResult) :
  fetches profile avatar w = (Normal (p, None), w1) ->
  getUserInfo userInfo profile avatar w
  = (Normal tt, withState w1 (merged p (avatarUrl userInfo)))
  /\ (avatarUrl (state w1) = avatarUrl userInfo ->
      avatarUrl (state (snd (getUserInfo userInfo profile avatar w)))
      = avatarUrl (state w1)).
Proof.
  intros Hfetch. rewrite getUserInfo_fetches, Hfetch.
  split; [reflexivity|]. intros Hsame. cbn. symmetry. exact Hsame.
Qed.

Lemma merge_reuses_captured_avatar_witness :
  fetches annProfile avatarNotFound initialWorld
  = (Normal (annResult, None), initialWorld)
  /\ getUserInfo initialUserInfo annProfile avatarNotFound initialWorld
    = (Normal tt, withState initialWorld (merged annResult None))
  /\ avatarUrl (state (snd (getUserInfo initialUserInfo annProfile
                             avatarNotFound initialWorld)))
    = avatarUrl (state initialWorld).
Proof.
  pose proof (merge_reuses_captured_avatar initialUserInfo annProfile
                avatarNotFound initialWorld initialWorld annResult eq_refl)
    as [Hrun Hsame].
  split; [reflexivity|]. split; [exact Hrun|exact (Hsame eq_refl)].
Defined.

(** C1, as stated, fails: an avatar stored while the avatar request is
    pending is in the state at the moment of the merge, and the merge
    replaces it by the avatar captured before the requests. *)
Lemma merge_overwrites_interleaved_avatar :
  let atMerge := snd (fetches annProfile avatarNotFoundAfterUpload initialWorld) in
  let final := snd (healthSync annProfile avatarNotFoundAfterUpload initialWorld) in
  fst (fetches annProfile avatarNotFoundAfterUpload initialWorld)
  = Normal (annResult, None)
  /\ avatarUrl (state atMerge) = Some "blob:uploaded"
  /\ avatarUrl (state final) = None
  /\ avatarUrl (state final) <> avatarUrl (state atMerge).
Proof. cbv zeta. repeat split; try reflexivity. discriminate. Qed.

(** C2: when the profile request fails, the sync completes with one more
    notification, "Error getting user info", and writes nothing to the
    state cell: the state is what the interleaved updates of other tasks
    made of it, and the pre-sync value when there are none. *)
Theorem profile_failure_leaves_state (profile : Api.Request Api.UserInfoResult)
    (avatar : Api.Request Api.AvatarResult) (error : JsError) (w : World) :
  Api.settled profile = Throw error ->
  healthSync profile avatar w
  = (Normal tt,
     {| state := interfere (Api.interleaved profile) (state w);
        snackbars := snackbars w
                     ++ [{| variant := "error";
                            message := Some "Error getting user info" |}];
        objectURLs := objectURLs w |})
  /\ (Api.interleaved profile = [] ->
      state (snd (healthSync profile avatar w)) = state w).
Proof.
  intros He. rewrite healthSync_getUserInfo.
  rewrite (getUserInfo_profile_failure _ _ _ _ _ He).
  split; [reflexivity|]. intros Hnone. cbn. rewrite Hnone. reflexivity.
Qed.

Lemma profile_failure_leaves_state_witness :
  healthSync failedProfile avatarNotFound annWorld
  = (Normal tt,
     {| state := state annWorld;
        snackbars := [{| variant := "error";
                         message := Some "Error getting user info" |}];
        objectURLs := ∅ |})
  /\ state (snd (healthSync failedProfile avatarNotFound annWorld))
    = state annWorld.
Proof.
  pose proof (profile_failure_leaves_state failedProfile avatarNotFound _
                annWorld eq_refl) as [Hrun Hstate].
  split; [exact Hrun|exact (Hstate eq_refl)].
Defined.

(** C3, as the code has it: after a successful profile request, an avatar
    request that fails with an Axios error other than a 404 response, whose
    response (if any) has a body, adds exactly one notification, carrying
    the detail of the body when there is one; a failure that is not an Axios
    error adds none.  In both cases the sync goes on: the state receives the
    new name and key and keeps the avatar it had before the sync. *)
Theorem avatar_failure_notifies_and_proceeds
    (profile : Api.Request Api.UserInfoResult)
    (avatar : Api.Request Api.AvatarResult)
    (p : Api.UserInfoResult) (error : JsError) (w : World) :
  Api.settled profile = Normal p ->
  Api.settled avatar = Throw error ->
  (isAxiosError error = true ->
   statusIsNot404 error = true ->
   (forall r, response error = Some r -> data r <> None) ->
   healthSync profile avatar w
   = (Normal tt,
      {| state := merged p (avatarUrl (state w));
         snackbars := snackbars w
                      ++ [{| variant := "error"; message := serverDetail error |}];
         objectURLs := objectURLs w |}))
  /\ (isAxiosError error = false ->
      healthSync profile avatar w
      = (Normal tt,
         {| state := merged p (avatarUrl (state w));
            snackbars := snackbars w;
            objectURLs := objectURLs w |})).
Proof.
  intros Hp He.
  rewrite healthSync_getUserInfo, getUserInfo_fetches.
  unfold fetches, mbind, Task_bind, await. rewrite Hp.
  rewrite (getAvatarUrl_failure _ _ _ He).
  split.
  - intros Haxios Hstatus Hbody. rewrite Haxios, Hstatus. cbn [andb].
    destruct (response error) as [[code [body|]]|] eqn:Hresponse.
    + reflexivity.
    + exfalso. exact (Hbody _ eq_refl eq_refl).
    + reflexivity.
  - intros Hother. rewrite Hother. reflexivity.
Qed.

Lemma avatar_failure_notifies_and_proceeds_witness :
  healthSync annProfile avatarServerError initialWorld
  = (Normal tt,
     {| state := {| name := Some "Ann"; openaiApiKey := Some "sk-123";
                    avatarUrl := None |};
        snackbars := [{| variant := "error"; message := Some "server error" |}];
        objectURLs := ∅ |})
  /\ healthSync annProfile avatarOtherError initialWorld
     = (Normal tt,
        {| state := {| name := Some "Ann"; openaiApiKey := Some "sk-123";
                       avatarUrl := None |};
           snackbars := [];
           objectURLs := ∅ |}).
Proof.
  split.
  - refine (proj1 (avatar_failure_notifies_and_proceeds annProfile
                     avatarServerError annResult serverError initialWorld
                     eq_refl eq_refl) eq_refl eq_refl _).
    intros r Hr. injection Hr as <-. discriminate.
  - exact (proj2 (avatar_failure_notifies_and_proceeds annProfile
                    avatarOtherError annResult _ initialWorld
                    eq_refl eq_refl) eq_refl).
Defined.

(** C3, as stated, fails: an avatar request that fails with an error that
    is not an Axios error, and so is no 404 response, adds no
    notification. *)
Lemma other_avatar_failure_is_silent :
  Api.settled avatarOtherError = Throw (Error "response interceptor failed")
  /\ statusIsNot404 (Error "response interceptor failed") = true
  /\ snackbars (snd (healthSync annProfile avatarOtherError initialWorld)) = []
  /\ length (snackbars (snd (healthSync annProfile avatarOtherError initialWorld)))
     <> 1%nat.
Proof. repeat split; try reflexivity. discriminate. Qed.

(** C4: when the profile request succeeds and the avatar request is
    answered 404, the sync ends with the new name and key in the state,
    the avatar the state had before the sync, and no notification. *)
Theorem avatar_not_found_keeps_avatar
    (profile : Api.Request Api.UserInfoResult)
    (avatar : Api.Request Api.AvatarResult)
    (p : Api.UserInfoResult) (r : AxiosResponse) (w : World) :
  Api.settled profile = Normal p ->
  Api.settled avatar = Throw (AxiosError (Some r)) ->
  status r = 404 ->
  healthSync profile avatar w
  = (Normal tt,
     {| state := {| name := Api.name p;
                    openaiApiKey := Api.openai_api_key p;
                    avatarUrl := avatarUrl (state w) |};
        snackbars := snackbars w;
        objectURLs := objectURLs w |}).
Proof.
  intros Hp He Hstatus.
  rewrite healthSync_getUserInfo, getUserInfo_fetches.
  unfold fetches, mbind, Task_bind. unfold await at 1. rewrite Hp.
  rewrite (getAvatarUrl_failure _ _ _ He).
  unfold statusIsNot404. cbn [isAxiosError response andb].
  rewrite Hstatus. reflexivity.
Qed.

Lemma avatar_not_found_keeps_avatar_witness :
  healthSync annProfile avatarNotFound initialWorld
  = (Normal tt,
     {| state := {| name := Some "Ann"; openaiApiKey := Some "sk-123";
                    avatarUrl := None |};
        snackbars := [];
        objectURLs := ∅ |}).
Proof.
  exact (avatar_not_found_keeps_avatar annProfile avatarNotFound annResult _
           initialWorld eq_refl eq_refl eq_refl).
Defined.

(** ** [setAvatarBlob] *)

(** C5, as the code has it: [setAvatarBlob] replaces the state by the value
    captured by the render that defined it, with the avatar set to the
    handle decoded from the text; name and key are those of the state at
    the time of the call when that state is the captured one. *)
Theorem setAvatarBlob_keeps_captured_fields (userInfo : UserInfo)
    (blob : string) (w : World) :
  exists (url : string) (w1 : World),
    decodeBase64Data blob w = (Normal url, w1)
    /\ setAvatarBlob userInfo blob w
       = (Normal tt,
          withState w1
            {| name := name userInfo;
               openaiApiKey := openaiApiKey userInfo;
               avatarUrl := Some url |})
    /\ (state w = userInfo ->
        state (snd (setAvatarBlob userInfo blob w))
        = {| name := name (state w);
             openaiApiKey := openaiApiKey (state w);
             avatarUrl := Some url |}).
Proof.
  exists (nextObjectURL w), (withBlob w (decodedBytes blob)).
  rewrite decodeBase64Data_run, setAvatarBlob_run.
  repeat split. intros <-. reflexivity.
Qed.

Lemma setAvatarBlob_keeps_captured_fields_witness :
  exists (url : string),
    name (state (snd (setAvatarBlob (state annWorld) "QUJD" annWorld)))
    = Some "Ann"
    /\ openaiApiKey (state (snd (setAvatarBlob (state annWorld) "QUJD" annWorld)))
       = Some "sk-123"
    /\ avatarUrl (state (snd (setAvatarBlob (state annWorld) "QUJD" annWorld)))
       = Some url.
Proof.
  destruct (setAvatarBlob_keeps_captured_fields (state annWorld) "QUJD" annWorld)
    as (url & w1 & _ & _ & Hstate).
  exists url. rewrite (Hstate eq_refl). repeat split.
Defined.

(** C5, as stated, fails: called through the closure of the first render
    after a sync has stored a profile, [setAvatarBlob] puts the name and
    key of the first render back. *)
Lemma stale_setAvatarBlob_resets_profile :
  name (state annWorld) = Some "Ann"
  /\ name (state (snd (setAvatarBlob initialUserInfo "QUJD" annWorld))) = None
  /\ name (state (snd (setAvatarBlob initialUserInfo "QUJD" annWorld)))
     <> name (state annWorld).
Proof.
  rewrite setAvatarBlob_run. repeat split. discriminate.
Qed.

(** ** The effect over a sequence of renders *)

Lemma callsGetUserInfo_edge (before now : bool) :
  callsGetUserInfo (Some before) now = negb before && now.
Proof. destruct before, now; reflexivity. Qed.

Lemma countCalls_risingEdges (before : bool) (signal : list bool) :
  countCalls (syncCalls (Some before) signal) = risingEdges before signal.
Proof.
  revert before. induction signal as [|now rest IH]; intros before.
  - reflexivity.
  - cbn [syncCalls risingEdges]. rewrite callsGetUserInfo_edge.
    unfold countCalls in *. cbn [List.filter].
    destruct (negb before && now); cbn; rewrite IH; reflexivity.
Qed.

Lemma syncCalls_app (previous : option bool) (earlier later : list bool) :
  syncCalls previous (earlier ++ later)
  = (syncCalls previous earlier ++ syncCalls (lastSeen previous earlier) later)%list.
Proof.
  revert previous. induction earlier as [|now rest IH]; intros previous.
  - reflexivity.
  - cbn [app syncCalls lastSeen]. rewrite IH. reflexivity.
Qed.

Lemma countCalls_app (calls more : list bool) :
  countCalls (calls ++ more) = (countCalls calls + countCalls more)%nat.
Proof.
  unfold countCalls. rewrite List.filter_app, List.length_app. reflexivity.
Qed.

Lemma lastSeen_snoc (previous : option bool) (signal : list bool) (now : bool) :
  lastSeen previous (signal ++ [now]) = Some now.
Proof.
  revert previous. induction signal as [|b rest IH]; intros previous.
  - reflexivity.
  - cbn [app lastSeen]. apply IH.
Qed.

Lemma syncCalls_stay_true (n : nat) :
  countCalls (syncCalls (Some true) (repeat true n)) = 0%nat.
Proof. rewrite countCalls_risingEdges. induction n; cbn; auto. Qed.

(** C6, as the code has it: over every sequence of signal values seen by
    the renders, [getUserInfo] is called once per false-to-true transition,
    and once more at the first render when the signal is true there; it is
    not called while the signal stays false, nor while it stays true after
    a call, and a later true, false, true adds exactly one call. *)
Theorem sync_once_per_rising_edge (signal : list bool) (n : nat) :
  syncCount (false :: signal) = transitions (false :: signal)
  /\ syncCount (true :: signal) = S (transitions (true :: signal))
  /\ syncCount (repeat false n) = 0%nat
  /\ syncCount (signal ++ true :: repeat true n) = syncCount (signal ++ [true])
  /\ syncCount (signal ++ [true; false; true])
     = S (syncCount (signal ++ [true])).
Proof.
  assert (Hfirst : forall b rest,
             syncCount (b :: rest)
             = ((if b then 1 else 0) + risingEdges b rest)%nat).
  { intros b rest. unfold syncCount. cbn [syncCalls].
    rewrite <- countCalls_risingEdges. destruct b; reflexivity. }
  repeat split.
  - apply Hfirst.
  - apply Hfirst.
  - destruct n as [|n]; [reflexivity|].
    cbn [repeat]. rewrite Hfirst. clear. induction n; cbn; auto.
  - unfold syncCount.
    change (signal ++ true :: repeat true n)%list
      with (signal ++ [true] ++ repeat true n)%list.
    rewrite app_assoc, syncCalls_app, countCalls_app, lastSeen_snoc.
    rewrite syncCalls_stay_true. lia.
  - unfold syncCount.
    change (signal ++ [true; false; true])%list
      with (signal ++ [true] ++ [false; true])%list.
    rewrite app_assoc, syncCalls_app, countCalls_app, lastSeen_snoc.
    cbn. lia.
Qed.

(** C6, as stated, fails: a signal that is true at the first render and
    has no false-to-true transition still starts one sync. *)
Lemma sync_at_mount_without_transition :
  transitions [true; true] = 0%nat
  /\ syncCount [true; true] = 1%nat
  /\ syncCount [true; true] <> transitions [true; true].
Proof. repeat split. discriminate. Qed.

(** ** Completion of the public entry points *)

(** C9: [useUserInfo] returns a triple under every nesting of providers,
    and without a provider it returns the default triple: no user info and
    two setters that do nothing. *)
Theorem useUserInfo_never_throws :
  (forall enclosing : list UserInfoContextType,
      exists (info : option UserInfo) (set : SetStateAction -> Task unit)
             (setAvatar : string -> Task unit),
        useUserInfo enclosing = Normal (info, set, setAvatar))
  /\ (exists (set : SetStateAction -> Task unit) (setAvatar : string -> Task unit),
        useUserInfo [] = Normal (None, set, setAvatar)
        /\ (forall action w, set action w = (Normal tt, w))
        /\ (forall blob w, setAvatar blob w = (Normal tt, w)))
  /\ (forall (userInfo : UserInfo) (outer : list UserInfoContextType),
        useUserInfo (providerValue userInfo :: outer)
        = Normal (Some userInfo, setUserInfo, setAvatarBlob userInfo)).
Proof.
  split; [|split].
  - intros [|[[info set] setAvatar] outer].
    + eexists _, _, _. reflexivity.
    + exists info, set, setAvatar. reflexivity.
  - eexists _, _. split; [reflexivity|]. split; reflexivity.
  - reflexivity.
Qed.

(** C10: on every text the decoder returns a handle; what it reads is the
    bytes of the alphabet characters before the first [=], all other
    characters being dropped; so [setAvatarBlob] completes on every text. *)
Theorem decodeBase64Data_total (text : string) (w : World) :
  (exists (url : string) (w1 : World),
      decodeBase64Data text w = (Normal url, w1)
      /\ objectURLs w1 !! url = Some (decodedBytes text))
  /\ Base64.base64ToBytes text = Normal (decodedBytes text)
  /\ forall userInfo : UserInfo,
      exists w2 : World, setAvatarBlob userInfo text w = (Normal tt, w2).
Proof.
  split; [|split].
  - exists (nextObjectURL w), (withBlob w (decodedBytes text)).
    split; [apply decodeBase64Data_run|].
    unfold withBlob. cbn [objectURLs]. apply lookup_insert_eq.
  - apply base64ToBytes_lenient.
  - intros userInfo. eexists. apply setAvatarBlob_run.
Qed.

Lemma getUserInfo_completes (userInfo : UserInfo)
    (profile : Api.Request Api.UserInfoResult)
    (avatar : Api.Request Api.AvatarResult) (w : World) :
  exists (w1 : World) (extra : list Snackbar),
    getUserInfo userInfo profile avatar w = (Normal tt, w1)
    /\ snackbars w1 = (snackbars w ++ extra)%list
    /\ (length extra <= 1)%nat.
Proof.
  destruct (Api.settled profile) as [p|e] eqn:Hp.
  - rewrite getUserInfo_fetches.
    unfold fetches, mbind, Task_bind, await. rewrite Hp.
    destruct (Api.settled avatar) as [r|e] eqn:Ha.
    + rewrite (getAvatarUrl_success _ _ _ Ha).
      eexists _, []. split; [reflexivity|].
      split; [symmetry; apply app_nil_r|cbn; lia].
    + rewrite (getAvatarUrl_failure _ _ _ Ha).
      destruct (isAxiosError e && statusIsNot404 e).
      * destruct (response e) as [[code [body|]]|];
          eexists _, [_]; (split; [reflexivity|]); split; reflexivity || (cbn; lia).
      * eexists _, []. split; [reflexivity|].
        split; [symmetry; apply app_nil_r|cbn; lia].
  - rewrite (getUserInfo_profile_failure _ _ _ _ _ Hp).
    eexists _, [_]. split; [reflexivity|]. split; [reflexivity|cbn; lia].
Qed.

(** C8: whatever the requests do and whatever the text, [getUserInfo], the
    render with its health-triggered effect, [setAvatarBlob] and
    [useUserInfo] complete normally; a failure inside the sync ends in at
    most one notification of the returned world, never in a thrown
    error. *)
Theorem entry_points_complete_normally (userInfo : UserInfo)
    (profile : Api.Request Api.UserInfoResult)
    (avatar : Api.Request Api.AvatarResult)
    (previous : option bool) (isHealthy : bool) (blob : string)
    (enclosing : list UserInfoContextType) (w : World) :
  (exists (w1 : World) (extra : list Snackbar),
      getUserInfo userInfo profile avatar w = (Normal tt, w1)
      /\ snackbars w1 = (snackbars w ++ extra)%list
      /\ (length extra <= 1)%nat)
  /\ (exists (w1 : World) (extra : list Snackbar),
        renderThenEffect previous isHealthy profile avatar w = (Normal tt, w1)
        /\ snackbars w1 = (snackbars w ++ extra)%list
        /\ (length extra <= 1)%nat)
  /\ (exists w1 : World,
        setAvatarBlob userInfo blob w = (Normal tt, w1)
        /\ snackbars w1 = snackbars w)
  /\ (exists context : UserInfoContextType,
        useUserInfo enclosing = Normal context).
Proof.
  split; [apply getUserInfo_completes|].
  split; [|split].
  - rewrite renderThenEffect_calls.
    destruct (callsGetUserInfo previous isHealthy);
      [apply getUserInfo_completes|].
    exists w, []. split; [reflexivity|].
    split; [symmetry; apply app_nil_r|cbn; lia].
  - eexists. split; [apply setAvatarBlob_run|reflexivity].
  - destruct enclosing as [|context outer]; eexists; reflexivity.
Qed.

(** * Further properties of the sync *)

(** X1: when both requests succeed, the sync stores the fetched name and
    key with a new avatar handle and adds no notification; when the avatar
    text is the base64 payload of a byte sequence, the stored handle refers
    to exactly those bytes. *)
Theorem sync_success_stores_new_avatar
    (profile : Api.Request Api.UserInfoResult)
    (avatar : Api.Request Api.AvatarResult)
    (p : Api.UserInfoResult) (r : Api.AvatarResult) (w : World) :
  Api.settled profile = Normal p ->
  Api.settled avatar = Normal r ->
  healthSync profile avatar w
  = (Normal tt,
     {| state := {| name := Api.name p;
                    openaiApiKey := Api.openai_api_key p;
                    avatarUrl := Some (nextObjectURL w) |};
        snackbars := snackbars w;
        objectURLs :=
          <[nextObjectURL w := decodedBytes (Api.blob r)]> (objectURLs w) |})
  /\ forall payload : list Byte.byte,
      Api.blob r = Base64.encode payload ->
      exists url : string,
        avatarUrl (state (snd (healthSync profile avatar w))) = Some url
        /\ objectURLs (snd (healthSync profile avatar w)) !! url
           = Some (map Base64.byteValue payload).
Proof.
  intros Hp Ha.
  assert (Hrun : healthSync profile avatar w
                 = (Normal tt,
                    {| state := merged p (Some (nextObjectURL w));
                       snackbars := snackbars w;
                       objectURLs :=
                         <[nextObjectURL w := decodedBytes (Api.blob r)]>
                           (objectURLs w) |})).
  { rewrite healthSync_getUserInfo, getUserInfo_fetches.
    unfold fetches, mbind, Task_bind, await. rewrite Hp.
    rewrite (getAvatarUrl_success _ _ _ Ha). reflexivity. }
  split; [exact Hrun|].
  intros payload Hblob. exists (nextObjectURL w). rewrite Hrun.
  split; [reflexivity|]. cbn [snd objectURLs].
  rewrite lookup_insert_eq, Hblob, decodedBytes_encode. reflexivity.
Qed.

Lemma sync_success_stores_new_avatar_witness :
  healthSync annProfile abcdAvatar initialWorld
  = (Normal tt,
     {| state := {| name := Some "Ann"; openaiApiKey := Some "sk-123";
                    avatarUrl := Some (nextObjectURL initialWorld) |};
        snackbars := [];
        objectURLs :=
          <[nextObjectURL initialWorld := decodedBytes "QUJDRA=="]> ∅ |})
  /\ exists url : string,
      avatarUrl (state (snd (healthSync annProfile abcdAvatar initialWorld)))
      = Some url
      /\ objectURLs (snd (healthSync annProfile abcdAvatar initialWorld)) !! url
         = Some [65; 66; 67; 68].
Proof.
  pose proof (sync_success_stores_new_avatar annProfile abcdAvatar annResult
                {| Api.blob := "QUJDRA==" |} initialWorld eq_refl eq_refl)
    as [Hrun Hbytes].
  split; [exact Hrun|].
  exact (Hbytes [Byte.x41; Byte.x42; Byte.x43; Byte.x44] eq_refl).
Defined.

(** X2: an avatar request answered with an error other than 404 whose body
    is [null] makes the read of [detail] throw inside the handler of
    [getAvatarUrl]; the sync then ends like a failed profile request: one
    notification "Error getting user info", and no write to the state, although
    the profile request succeeded. *)
Theorem null_error_body_aborts_sync
    (profile : Api.Request Api.UserInfoResult)
    (avatar : Api.Request Api.AvatarResult)
    (p : Api.UserInfoResult) (r : AxiosResponse) (w : World) :
  Api.settled profile = Normal p ->
  Api.settled avatar = Throw (AxiosError (Some r)) ->
  status r <> 404 ->
  data r = None ->
  healthSync profile avatar w
  = (Normal tt,
     {| state := interfere (Api.interleaved avatar)
                   (interfere (Api.interleaved profile) (state w));
        snackbars := snackbars w
                     ++ [{| variant := "error";
                            message := Some "Error getting user info" |}];
        objectURLs := objectURLs w |}).
Proof.
  intros Hp Ha Hstatus Hdata.
  rewrite healthSync_getUserInfo, getUserInfo_fetches.
  unfold fetches, mbind, Task_bind, await. rewrite Hp.
  rewrite (getAvatarUrl_failure _ _ _ Ha).
  destruct r as [code body]. cbn in Hstatus, Hdata. subst body.
  unfold statusIsNot404. cbn [isAxiosError response andb status].
  destruct (code =? 404) eqn:Hcode; [apply Z.eqb_eq in Hcode; contradiction|].
  reflexivity.
Qed.

Lemma null_error_body_aborts_sync_witness :
  healthSync annProfile avatarNullBody initialWorld
  = (Normal tt,
     {| state := initialUserInfo;
        snackbars := [{| variant := "error";
                         message := Some "Error getting user info" |}];
        objectURLs := ∅ |}).
Proof.
  refine (null_error_body_aborts_sync annProfile avatarNullBody annResult
            nullBodyError initialWorld eq_refl eq_refl _ eq_refl).
  discriminate.
Defined.

Lemma fetches_settled (profile profile' : Api.Request Api.UserInfoResult)
    (avatar avatar' : Api.Request Api.AvatarResult) (w : World) :
  Api.settled profile = Api.settled profile' ->
  Api.settled avatar = Api.settled avatar' ->
  fst (fetches profile avatar w) = fst (fetches profile' avatar' w).
Proof.
  intros Hp Ha. unfold fetches, mbind, Task_bind, await. rewrite <- Hp.
  destruct (Api.settled profile) as [p|e]; [|reflexivity].
  destruct (Api.settled avatar) as [r|e] eqn:Hr.
  - rewrite (getAvatarUrl_success avatar r _ Hr).
    rewrite (getAvatarUrl_success avatar' r _ (eq_sym Ha)).
    reflexivity.
  - rewrite (getAvatarUrl_failure avatar e _ Hr).
    rewrite (getAvatarUrl_failure avatar' e _ (eq_sym Ha)).
    destruct (isAxiosError e && statusIsNot404 e); [|reflexivity].
    destruct (response e) as [[code [body|]]|]; reflexivity.
Qed.

(** X3: a sync whose requests lead to the merge overwrites every update made
    to the state while the requests were pending: the state it leaves is the
    same for all interleaved updates. *)
Theorem merge_overwrites_interleaved_updates (userInfo : UserInfo)
    (profile profile' : Api.Request Api.UserInfoResult)
    (avatar avatar' : Api.Request Api.AvatarResult)
    (p : Api.UserInfoResult) (handle : option string) (w : World) :
  Api.settled profile = Api.settled profile' ->
  Api.settled avatar = Api.settled avatar' ->
  fst (fetches profile avatar w) = Normal (p, handle) ->
  state (snd (getUserInfo userInfo profile avatar w))
  = state (snd (getUserInfo userInfo profile' avatar' w)).
Proof.
  intros Hp Ha Hfetch.
  pose proof (fetches_settled profile profile' avatar avatar' w Hp Ha) as Hsame.
  rewrite Hfetch in Hsame.
  rewrite !getUserInfo_fetches.
  destruct (fetches profile avatar w) as [c w1]. cbn in Hfetch. subst c.
  destruct (fetches profile' avatar' w) as [c' w1']. cbn in Hsame. subst c'.
  reflexivity.
Qed.

Lemma merge_overwrites_interleaved_updates_witness :
  state (snd (getUserInfo initialUserInfo annProfileRenamed avatarNotFound
                initialWorld))
  = state (snd (getUserInfo initialUserInfo annProfile avatarNotFound
                  initialWorld))
  /\ name (state (snd (getUserInfo initialUserInfo annProfileRenamed
                         avatarNotFound initialWorld)))
     = Some "Ann".
Proof.
  split; [|reflexivity].
  exact (merge_overwrites_interleaved_updates initialUserInfo annProfileRenamed
           annProfile avatarNotFound avatarNotFound annResult None initialWorld
           eq_refl eq_refl eq_refl).
Defined.

(** X4: [getAvatarUrl] returns a handle exactly when the avatar request
    succeeded, and throws only on an error response other than 404 whose
    body is [null]; every other failure gives [null]. *)
Theorem getAvatarUrl_outcomes (avatar : Api.Request Api.AvatarResult) (w : World) :
  ((exists url, fst (getAvatarUrl avatar w) = Normal (Some url))
   <-> exists r, Api.settled avatar = Normal r)
  /\ ((exists error, fst (getAvatarUrl avatar w) = Throw error)
      <-> exists r, Api.settled avatar = Throw (AxiosError (Some r))
                    /\ status r <> 404 /\ data r = None).
Proof.
  destruct (Api.settled avatar) as [r|e] eqn:Hr.
  - rewrite (getAvatarUrl_success _ _ _ Hr). cbn [fst].
    split; split.
    + intros _. exists r. reflexivity.
    + intros _. eexists. reflexivity.
    + intros [error Herror]. discriminate.
    + intros (r' & Hr' & _). discriminate.
  - rewrite (getAvatarUrl_failure _ _ _ Hr).
    destruct e as [[[code [body|]]|]|text|text];
      unfold statusIsNot404; cbn [isAxiosError response andb data status];
      try destruct (code =? 404) eqn:Hcode; cbn [negb fst];
      (split; (split; [intros [x Hx]|intros [x Hx]])); try discriminate;
      try match goal with
          | H : _ /\ _ |- _ =>
              destruct H as (Heq & Hs & Hd); try discriminate;
              injection Heq as <-; cbn in Hs, Hd; try discriminate;
              try (apply Z.eqb_eq in Hcode; contradiction)
          end.
    + eexists. split; [reflexivity|]. cbn.
      split; [apply Z.eqb_neq; exact Hcode|reflexivity].
    + eexists. reflexivity.
Qed.

Lemma getAvatarUrl_outcomes_witness :
  exists url : string,
    fst (getAvatarUrl abcdAvatar initialWorld) = Normal (Some url).
Proof.
  apply (proj1 (getAvatarUrl_outcomes abcdAvatar initialWorld)).
  eexists. reflexivity.
Defined.

(** * The object-URL registry *)

Lemma nextObjectURL_fresh (w : World) :
  registryOk (objectURLs w) -> objectURLs w !! nextObjectURL w = None.
Proof.
  intros Hok. destruct (objectURLs w !! nextObjectURL w) as [b|] eqn:Hb;
    [|reflexivity].
  destruct (Hok (nextObjectURL w)) as (k & Hk & Heq); [rewrite Hb; eauto|].
  unfold nextObjectURL in Heq.
  apply String.app_inj in Heq. apply (inj pretty) in Heq. lia.
Qed.

Lemma registryOk_insert (w : World) (blob : list Z) :
  registryOk (objectURLs w) ->
  registryOk (<[nextObjectURL w := blob]> (objectURLs w)).
Proof.
  intros Hok url Hurl.
  rewrite map_size_insert_None by (apply nextObjectURL_fresh; exact Hok).
  destruct (decide (nextObjectURL w = url)) as [<-|Hne].
  - exists (size (objectURLs w)). split; [lia|reflexivity].
  - rewrite lookup_insert_ne in Hurl by exact Hne.
    destruct (Hok url Hurl) as (k & Hk & Heq). exists k. split; [lia|exact Heq].
Qed.

(** X5: in a registry filled by [createObjectURL] alone, [decodeBase64Data]
    returns a URL that was not registered before, registers exactly one
    more blob, and leaves every blob registered earlier readable under its
    URL: an earlier handle is never reused or released. *)
Theorem decodeBase64Data_fresh_handle (text url : string) (w w1 : World) :
  registryOk (objectURLs w) ->
  decodeBase64Data text w = (Normal url, w1) ->
  objectURLs w !! url = None
  /\ size (objectURLs w1) = S (size (objectURLs w))
  /\ registryOk (objectURLs w1)
  /\ forall (earlier : string) (blob : list Z),
      objectURLs w !! earlier = Some blob ->
      objectURLs w1 !! earlier = Some blob.
Proof.
  intros Hok Hrun. rewrite decodeBase64Data_run in Hrun.
  injection Hrun as <- <-.
  pose proof (nextObjectURL_fresh w Hok) as Hfresh.
  unfold withBlob. cbn [objectURLs].
  split; [exact Hfresh|].
  split; [apply map_size_insert_None; exact Hfresh|].
  split; [apply registryOk_insert; exact Hok|].
  intros earlier blob Hearlier.
  rewrite lookup_insert_ne; [exact Hearlier|].
  intros Heq. rewrite <- Heq, Hfresh in Hearlier. discriminate.
Qed.

Lemma registryOk_empty : registryOk (∅ : gmap string (list Z)).
Proof. intros url [b Hb]. rewrite lookup_empty in Hb. discriminate. Qed.

Lemma decodeBase64Data_fresh_handle_witness :
  registryOk (objectURLs initialWorld)
  /\ size (objectURLs (snd (decodeBase64Data "QUJD" initialWorld))) = 1%nat.
Proof.
  split; [exact registryOk_empty|].
  exact (proj1 (proj2 (decodeBase64Data_fresh_handle "QUJD" _ initialWorld _
                         registryOk_empty
                         (decodeBase64Data_run "QUJD" initialWorld)))).
Defined.

Lemma getUserInfo_registry (userInfo : UserInfo)
    (profile : Api.Request Api.UserInfoResult)
    (avatar : Api.Request Api.AvatarResult) (w : World) :
  objectURLs (snd (getUserInfo userInfo profile avatar w)) = objectURLs w
  \/ exists blob : list Z,
      objectURLs (snd (getUserInfo userInfo profile avatar w))
      = <[nextObjectURL w := blob]> (objectURLs w).
Proof.
  destruct (Api.settled profile) as [p|e] eqn:Hp.
  - rewrite getUserInfo_fetches.
    unfold fetches, mbind, Task_bind, await. rewrite Hp.
    destruct (Api.settled avatar) as [r|e] eqn:Ha.
    + rewrite (getAvatarUrl_success _ _ _ Ha). right. eexists. reflexivity.
    + rewrite (getAvatarUrl_failure _ _ _ Ha). left.
      destruct (isAxiosError e && statusIsNot404 e); [|reflexivity].
      destruct (response e) as [[code [body|]]|]; reflexivity.
  - rewrite (getUserInfo_profile_failure _ _ _ _ _ Hp). left. reflexivity.
Qed.

(** X6: no task of the provider releases or replaces a registered blob:
    after a sync, and after [setAvatarBlob], every blob registered before
    is still readable under its URL, the registry has at most one blob
    more, and it is still one filled by [createObjectURL] alone. *)
Theorem provider_tasks_keep_handles (userInfo : UserInfo)
    (profile : Api.Request Api.UserInfoResult)
    (avatar : Api.Request Api.AvatarResult) (text : string) (w : World) :
  registryOk (objectURLs w) ->
  let afterSync := snd (getUserInfo userInfo profile avatar w) in
  let afterSet := snd (setAvatarBlob userInfo text w) in
  (registryOk (objectURLs afterSync)
   /\ (size (objectURLs w) <= size (objectURLs afterSync)
       <= S (size (objectURLs w)))%nat
   /\ forall (earlier : string) (blob : list Z),
       objectURLs w !! earlier = Some blob ->
       objectURLs afterSync !! earlier = Some blob)
  /\ (registryOk (objectURLs afterSet)
      /\ size (objectURLs afterSet) = S (size (objectURLs w))
      /\ forall (earlier : string) (blob : list Z),
          objectURLs w !! earlier = Some blob ->
          objectURLs afterSet !! earlier = Some blob).
Proof.
  intros Hok afterSync afterSet.
  pose proof (nextObjectURL_fresh w Hok) as Hfresh.
  assert (Hkeep : forall (new : list Z) (earlier : string) (blob : list Z),
             objectURLs w !! earlier = Some blob ->
             <[nextObjectURL w := new]> (objectURLs w) !! earlier = Some blob).
  { intros new earlier blob Hearlier.
    rewrite lookup_insert_ne; [exact Hearlier|].
    intros Heq. rewrite <- Heq, Hfresh in Hearlier. discriminate. }
  split.
  - subst afterSync.
    destruct (getUserInfo_registry userInfo profile avatar w) as [->|[new ->]].
    + split; [exact Hok|]. split; [lia|]. auto.
    + split; [apply registryOk_insert; exact Hok|].
      rewrite map_size_insert_None by exact Hfresh.
      split; [lia|]. apply Hkeep.
  - subst afterSet. rewrite setAvatarBlob_run. cbn [snd withState withBlob objectURLs].
    split; [apply registryOk_insert; exact Hok|].
    split; [apply map_size_insert_None; exact Hfresh|]. apply Hkeep.
Qed.

Lemma provider_tasks_keep_handles_witness :
  size (objectURLs (snd (setAvatarBlob initialUserInfo "QUJD" initialWorld)))
  = 1%nat
  /\ (size (objectURLs (snd (getUserInfo initialUserInfo annProfile abcdAvatar
                               initialWorld))) <= 1)%nat.
Proof.
  pose proof (provider_tasks_keep_handles initialUserInfo annProfile abcdAvatar
                "QUJD" initialWorld registryOk_empty)
    as [(_ & [_ Hsync] & _) (_ & Hset & _)].
  split; [exact Hset|exact Hsync].
Defined.




(** * Further properties of the decoder *)

Lemma referencedBytes_decode (text : string) (w : World) :
  referencedBytes (decodeBase64Data text w) = Some (decodedBytes text).
Proof.
  rewrite decodeBase64Data_run. unfold referencedBytes, withBlob.
  cbn [objectURLs]. apply lookup_insert_eq.
Qed.

Lemma filter_valid_kept (str : list ascii) :
  List.filter Base64.validChar (Base64.takeWhile Base64.notPad str)
  = List.filter Base64.validChar
      (Base64.takeWhile Base64.notPad (List.filter keptChar str)).
Proof.
  induction str as [|c str IH]; [reflexivity|].
  cbn [List.filter Base64.takeWhile].
  assert (Hnot : Base64.notPad c = negb (Base64.isPad c)) by reflexivity.
  assert (Hkept : keptChar c = Base64.validChar c || Base64.isPad c)
    by reflexivity.
  rewrite Hkept.
  destruct (Base64.isPad c) eqn:Hpad, (Base64.validChar c) eqn:Hvalid;
    cbn [orb]; cbn [Base64.takeWhile]; rewrite ?Hnot, ?Hpad; cbn [negb];
    cbn [List.filter]; rewrite ?Hvalid, ?Hnot, ?Hpad; cbn [negb];
    try reflexivity.
  - rewrite IH. reflexivity.
  - exact IH.
Qed.

Lemma decodedBytes_kept (text1 text2 : string) :
  keptChars text1 = keptChars text2 -> decodedBytes text1 = decodedBytes text2.
Proof.
  unfold decodedBytes, keptChars. intros Hkept.
  rewrite (filter_valid_kept (list_ascii_of_string text1)).
  rewrite (filter_valid_kept (list_ascii_of_string text2)).
  rewrite Hkept. reflexivity.
Qed.

(** X8: the decoder looks only at the alphabet characters and at [=]: two
    texts that agree after every other character is removed give handles
    to the same bytes.  So a payload broken by line ends, blanks or any other
    foreign characters still decodes to the bytes it encodes. *)
Theorem decodeBase64Data_ignores_foreign_characters (text : string) (w : World) :
  (forall (text' : string) (w' : World),
      keptChars text = keptChars text' ->
      referencedBytes (decodeBase64Data text w)
      = referencedBytes (decodeBase64Data text' w'))
  /\ forall payload : list Byte.byte,
      keptChars text = list_ascii_of_string (Base64.encode payload) ->
      referencedBytes (decodeBase64Data text w)
      = Some (map Base64.byteValue payload).
Proof.
  split.
  - intros text' w' Hkept.
    rewrite !referencedBytes_decode, (decodedBytes_kept _ _ Hkept). reflexivity.
  - intros payload Hkept. rewrite referencedBytes_decode.
    rewrite <- decodedBytes_encode.
    unfold decodedBytes.
    rewrite (filter_valid_kept (list_ascii_of_string text)).
    unfold keptChars in Hkept. rewrite Hkept. reflexivity.
Qed.

Lemma decodeBase64Data_ignores_foreign_characters_witness :
  referencedBytes (decodeBase64Data wrappedText initialWorld)
  = Some [65; 66; 67; 68]
  /\ referencedBytes (decodeBase64Data wrappedText initialWorld)
     = referencedBytes (decodeBase64Data "QUJDRA==" annWorld).
Proof.
  pose proof (decodeBase64Data_ignores_foreign_characters wrappedText
                initialWorld) as [Hsame Hpayload].
  split.
  - exact (Hpayload [Byte.x41; Byte.x42; Byte.x43; Byte.x44] eq_refl).
  - exact (Hsame "QUJDRA==" annWorld eq_refl).
Defined.

Lemma list_ascii_app (s1 s2 : string) :
  list_ascii_of_string (String.append s1 s2)
  = (list_ascii_of_string s1 ++ list_ascii_of_string s2)%list.
Proof.
  induction s1 as [|c s1 IH]; [reflexivity|].
  simpl. f_equal. exact IH.
Qed.

Lemma takeWhile_stops_at_pad (before after : list ascii) :
  Base64.takeWhile Base64.notPad (before ++ "="%char :: after)
  = Base64.takeWhile Base64.notPad before.
Proof.
  induction before as [|c before IH]; [reflexivity|].
  cbn [app Base64.takeWhile]. rewrite IH. reflexivity.
Qed.

(** X9: everything from the first [=] on is ignored, whatever follows it;
    and a payload without its padding decodes to the bytes it encodes. *)
Theorem decodeBase64Data_stops_at_padding (text rest : string) (w w' : World) :
  referencedBytes (decodeBase64Data (String.append text (String "=" rest)) w)
  = referencedBytes (decodeBase64Data text w')
  /\ forall payload : list Byte.byte,
      referencedBytes (decodeBase64Data (encodeUnpadded payload) w)
      = Some (map Base64.byteValue payload).
Proof.
  split.
  - rewrite !referencedBytes_decode. unfold decodedBytes.
    rewrite list_ascii_app. cbn [list_ascii_of_string].
    rewrite takeWhile_stops_at_pad. reflexivity.
  - intros payload. rewrite referencedBytes_decode.
    unfold decodedBytes, encodeUnpadded.
    rewrite list_ascii_of_string_of_list_ascii.
    pose proof (byteValue_isByte payload) as Hbytes.
    pose proof (sextetChars_valid _ Hbytes) as Hvalid.
    pose proof (takeWhile_before_padding _ 0 Hvalid) as Htake.
    cbn [repeat] in Htake. rewrite app_nil_r in Htake. rewrite Htake.
    rewrite filter_valid_all by exact Hvalid.
    f_equal. apply decodeGroups_encodeBytes. exact Hbytes.
Qed.

Lemma list_ind4 {A} (P : list A -> Prop) :
  P [] -> (forall a, P [a]) -> (forall a b, P [a; b]) ->
  (forall a b c, P [a; b; c]) ->
  (forall a b c d l, P l -> P (a :: b :: c :: d :: l)) ->
  forall l, P l.
Proof.
  intros H0 H1 H2 H3 H4. fix IH 1.
  intros [|a [|b [|c [|d l]]]];
    [apply H0 | apply H1 | apply H2 | apply H3 | apply H4, IH].
Qed.

Lemma decodeGroups_length (valid : list ascii) :
  length (Base64.decodeGroups valid)
  = (3 * (length valid / 4) + pred (length valid mod 4))%nat.
Proof.
  induction valid as [| | | |c0 c1 c2 c3 rest IH] using list_ind4;
    try reflexivity.
  cbn [Base64.decodeGroups length]. rewrite IH.
  set (n := length rest).
  replace (S (S (S (S n)))) with (n + 1 * 4)%nat by lia.
  rewrite Nat.div_add, Nat.Div0.mod_add by lia. lia.
Qed.

(** X10: the decoded blob has three bytes for every four alphabet
    characters before the first [=], one more byte for two characters left
    over and two more for three; one character left over is dropped.  Each
    of its elements is a byte value. *)
Theorem decodeBase64Data_length (text : string) (w : World) :
  exists (url : string) (w1 : World) (bytes : list Z),
    decodeBase64Data text w = (Normal url, w1)
    /\ objectURLs w1 !! url = Some bytes
    /\ length bytes
       = (3 * (validCount text / 4) + pred (validCount text mod 4))%nat
    /\ Forall isByte bytes.
Proof.
  exists (nextObjectURL w), (withBlob w (decodedBytes text)), (decodedBytes text).
  split; [apply decodeBase64Data_run|].
  split; [unfold withBlob; cbn [objectURLs]; apply lookup_insert_eq|].
  split; [apply decodeGroups_length|apply decodeGroups_bytes].
Qed.

(** X11: with fewer than two alphabet characters before the first [=], in
    particular on the empty text, [setAvatarBlob] does not refuse the text:
    it stores a new handle, and that handle refers to an empty blob. *)
Theorem setAvatarBlob_short_text (userInfo : UserInfo) (text : string)
    (w : World) :
  (validCount text < 2)%nat ->
  exists url : string,
    fst (setAvatarBlob userInfo text w) = Normal tt
    /\ avatarUrl (state (snd (setAvatarBlob userInfo text w))) = Some url
    /\ objectURLs (snd (setAvatarBlob userInfo text w)) !! url = Some [].
Proof.
  intros Hshort. exists (nextObjectURL w). rewrite setAvatarBlob_run.
  split; [reflexivity|]. split; [reflexivity|].
  cbn [snd withState withBlob objectURLs]. rewrite lookup_insert_eq.
  f_equal. unfold decodedBytes. unfold validCount in Hshort.
  destruct (List.filter Base64.validChar _) as [|c0 [|c1 valid]];
    [reflexivity|reflexivity|cbn [length] in Hshort; lia].
Qed.

Lemma setAvatarBlob_short_text_witness :
  exists url : string,
    fst (setAvatarBlob initialUserInfo "" annWorld) = Normal tt
    /\ avatarUrl (state (snd (setAvatarBlob initialUserInfo "" annWorld)))
       = Some url
    /\ objectURLs (snd (setAvatarBlob initialUserInfo "" annWorld)) !! url
       = Some [].
Proof.
  apply (setAvatarBlob_short_text initialUserInfo "" annWorld).
  cbn. lia.
Defined.

Lemma standardChar_same (c : ascii) :
  Base64.validChar (standardChar c) = Base64.validChar c
  /\ Base64.notPad (standardChar c) = Base64.notPad c
  /\ Base64.revLookupAt (standardChar c) = Base64.revLookupAt c.
Proof.
  destruct c as [[] [] [] [] [] [] [] []]; vm_compute; auto.
Qed.

Lemma takeWhile_standard (str : list ascii) :
  Base64.takeWhile Base64.notPad (map standardChar str)
  = map standardChar (Base64.takeWhile Base64.notPad str).
Proof.
  induction str as [|c str IH]; [reflexivity|].
  cbn [map Base64.takeWhile].
  destruct (standardChar_same c) as (_ & -> & _).
  destruct (Base64.notPad c); [|reflexivity].
  cbn [map]. rewrite IH. reflexivity.
Qed.

Lemma filter_standard (str : list ascii) :
  List.filter Base64.validChar (map standardChar str)
  = map standardChar (List.filter Base64.validChar str).
Proof.
  induction str as [|c str IH]; [reflexivity|].
  cbn [map List.filter].
  destruct (standardChar_same c) as (-> & _ & _).
  destruct (Base64.validChar c); [|exact IH].
  cbn [map]. rewrite IH. reflexivity.
Qed.

Lemma decodeGroups_standard (valid : list ascii) :
  Base64.decodeGroups (map standardChar valid) = Base64.decodeGroups valid.
Proof.
  induction valid as [|c0|c0 c1|c0 c1 c2|c0 c1 c2 c3 rest IH] using list_ind4;
    cbn [map Base64.decodeGroups];
    repeat match goal with
           | |- context [Base64.revLookupAt (standardChar ?c)] =>
               destruct (standardChar_same c) as (_ & _ & ->)
           end;
    try reflexivity.
  rewrite IH. reflexivity.
Qed.

(** X12: the URL-safe characters [-] and [_] are read as [+] and [/]: a
    text and the same text with the URL-safe characters replaced give
    handles to the same bytes. *)
Theorem decodeBase64Data_url_safe (text : string) (w w' : World) :
  referencedBytes (decodeBase64Data (toStandard text) w)
  = referencedBytes (decodeBase64Data text w').
Proof.
  rewrite !referencedBytes_decode. f_equal.
  unfold decodedBytes, toStandard.
  rewrite list_ascii_of_string_of_list_ascii.
  rewrite takeWhile_standard, filter_standard. apply decodeGroups_standard.
Qed.

(** * Further properties of the renders *)

Lemma syncCalls_later (previous : option bool) (signal : list bool) (i : nat) :
  syncCalls previous signal !! S i = Some true
  <-> signal !! i = Some false /\ signal !! S i = Some true.
Proof.
  revert previous i. induction signal as [|before rest IH]; intros previous i.
  - cbn. split; [discriminate|intros [H _]; discriminate].
  - cbn [syncCalls].
    change (syncCalls (Some before) rest !! i = Some true
            <-> (before :: rest) !! i = Some false /\ rest !! i = Some true).
    destruct i as [|i].
    + destruct rest as [|now rest'].
      * cbn. split; [discriminate|intros [_ H]; discriminate].
      * cbn [syncCalls]. rewrite callsGetUserInfo_edge.
        destruct before, now; cbn; split;
          try discriminate; try (intros [H1 H2]; discriminate); auto.
    + change (syncCalls (Some before) rest !! S i = Some true
              <-> rest !! i = Some false /\ rest !! S i = Some true).
      apply IH.
Qed.

(** X13: over the renders of a provider, [getUserInfo] is called after the
    first render exactly when the signal is true there, and after a later
    render exactly when the signal is true there and was false at the
    render before; it is never called after a render that sees the signal
    false. *)
Theorem sync_calls_at_rising_renders (signal : list bool) (i : nat) :
  (syncCalls None signal !! 0%nat = Some true <-> signal !! 0%nat = Some true)
  /\ (syncCalls None signal !! S i = Some true
      <-> signal !! i = Some false /\ signal !! S i = Some true)
  /\ (signal !! i = Some false -> syncCalls None signal !! i = Some false).
Proof.
  split; [|split].
  - destruct signal as [|[] rest]; cbn; split; auto; discriminate.
  - apply syncCalls_later.
  - intros Hfalse.
    assert (Hlen : forall previous s, length (syncCalls previous s) = length s).
    { intros previous s. revert previous.
      induction s as [|b s IH]; intros previous; [reflexivity|].
      cbn [syncCalls length]. rewrite IH. reflexivity. }
    destruct (syncCalls None signal !! i) as [[|]|] eqn:Hcall.
    + exfalso. destruct i as [|i].
      * destruct signal as [|[] rest]; cbn in *; congruence.
      * apply syncCalls_later in Hcall. destruct Hcall as [_ Hnow]. congruence.
    + reflexivity.
    + exfalso. apply lookup_ge_None in Hcall. rewrite Hlen in Hcall.
      apply lookup_lt_Some in Hfalse. lia.
Qed.

Lemma sync_calls_at_rising_renders_witness :
  syncCalls None [false; true; true; false] !! 3%nat = Some false.
Proof.
  exact (proj2 (proj2 (sync_calls_at_rising_renders [false; true; true; false] 3))
           eq_refl).
Defined.

(** X14: a run of renders completes normally; it adds at most one
    notification per sync it starts, and when it starts none, because the
    signal is never seen to turn true, it leaves the world as it was. *)
Theorem runRenders_completes (previous : option bool)
    (renders : list (bool * Api.Request Api.UserInfoResult
                     * Api.Request Api.AvatarResult)) (w : World) :
  exists (w1 : World) (extra : list Snackbar),
    runRenders previous renders w = (Normal tt, w1)
    /\ snackbars w1 = (snackbars w ++ extra)%list
    /\ (length extra <= countCalls (syncCalls previous (signalOf renders)))%nat
    /\ (countCalls (syncCalls previous (signalOf renders)) = 0%nat -> w1 = w).
Proof.
  revert previous w.
  induction renders as [|[[isHealthy profile] avatar] rest IH]; intros previous w.
  - exists w, []. split; [reflexivity|].
    split; [symmetry; apply app_nil_r|]. split; [cbn; lia|reflexivity].
  - cbn [runRenders signalOf map fst syncCalls].
    fold (signalOf rest).
    unfold mbind, Task_bind. rewrite renderThenEffect_calls.
    unfold countCalls. cbn [List.filter].
    destruct (callsGetUserInfo previous isHealthy).
    + destruct (getUserInfo_completes (state w) profile avatar w)
        as (w0 & extra0 & -> & Hsnack0 & Hlen0).
      destruct (IH (Some isHealthy) w0) as (w1 & extra1 & -> & Hsnack1 & Hlen1 & _).
      exists w1, (extra0 ++ extra1)%list. split; [reflexivity|].
      split; [rewrite Hsnack1, Hsnack0, app_assoc; reflexivity|].
      unfold countCalls in Hlen1. cbn [id length].
      split; [rewrite List.length_app; lia|discriminate].
    + destruct (IH (Some isHealthy) w) as (w1 & extra1 & -> & Hsnack1 & Hlen1 & Hsame).
      exists w1, extra1. split; [reflexivity|].
      split; [exact Hsnack1|]. split; [exact Hlen1|exact Hsame].
Qed.

Lemma runRenders_completes_witness :
  runRenders None
    [(false, annProfile, avatarNotFound); (false, failedProfile, abcdAvatar)]
    annWorld
  = (Normal tt, annWorld).
Proof.
  destruct (runRenders_completes None
              [(false, annProfile, avatarNotFound);
               (false, failedProfile, abcdAvatar)] annWorld)
    as (w1 & extra & Hrun & _ & _ & Hsame).
  rewrite Hrun, (Hsame eq_refl). reflexivity.
Defined.

(** X15: [setAvatarBlob] on the base64 payload of a byte sequence stores a
    handle that refers to exactly those bytes, and adds no notification. *)
Theorem setAvatarBlob_stores_payload (userInfo : UserInfo)
    (payload : list Byte.byte) (w : World) :
  exists url : string,
    avatarUrl (state (snd (setAvatarBlob userInfo (Base64.encode payload) w)))
    = Some url
    /\ objectURLs (snd (setAvatarBlob userInfo (Base64.encode payload) w)) !! url
       = Some (map Base64.byteValue payload)
    /\ snackbars (snd (setAvatarBlob userInfo (Base64.encode payload) w))
       = snackbars w.
Proof.
  exists (nextObjectURL w). rewrite setAvatarBlob_run.
  cbn [snd state avatarUrl withState withBlob objectURLs snackbars].
  split; [reflexivity|]. split; [|reflexivity].
  rewrite lookup_insert_eq, decodedBytes_encode. reflexivity.
Qed.
